(** * Finance.py: breakout detector and summary statistics

    A shallow embedding of [analyze_breakouts] and [create_summary_stats]
    from [src/Finance.py], together with the pandas operations the two
    functions call.

    Numbers.  The program computes with numpy [float64] values.  They are
    modelled as exact rationals extended with the three IEEE special values
    (not-a-number and the two infinities), so that division by zero, the
    undefined head of a rolling window and the undefined sample deviation of
    one observation behave as they do in the program.  Binary rounding error
    and signed zeros are idealised away.

    Data.  A pandas [DataFrame] is an index of dates and a dictionary from
    column names to columns; assigning [df[name] = ...] updates the caller's
    object, so the detector is written in a state-and-exception monad over
    the frame. *)

From Stdlib Require Import ZArith QArith Qround Qabs List Lia Lqa Bool String Sorted.
From stdpp Require Import gmap strings.
Import ListNotations.

Local Open Scope Z_scope.
Local Open Scope Q_scope.

(** ** Extended rationals standing for float64 *)

Inductive float64 : Type :=
  | Fin (q : Q)
  | PInf
  | NInf
  | NaN.

Definition is_finite (x : float64) : bool :=
  match x with Fin _ => true | _ => false end.

Definition isnan (x : float64) : bool :=
  match x with NaN => true | _ => false end.

(** Sign of a rational: [Lt] negative, [Eq] zero, [Gt] positive. *)
Definition Qsign (q : Q) : comparison := (0 ?= q)%Q.

Definition inf_of (s : comparison) : float64 :=
  match s with Gt => NInf | Lt => PInf | Eq => NaN end.

Definition flip (s : comparison) : comparison := CompOpp s.

Definition fneg (x : float64) : float64 :=
  match x with
  | Fin q => Fin (- q)
  | PInf => NInf
  | NInf => PInf
  | NaN => NaN
  end.

Definition fadd (x y : float64) : float64 :=
  match x, y with
  | NaN, _ | _, NaN => NaN
  | Fin a, Fin b => Fin (a + b)
  | PInf, NInf | NInf, PInf => NaN
  | PInf, _ | _, PInf => PInf
  | NInf, _ | _, NInf => NInf
  end.

Definition fsub (x y : float64) : float64 := fadd x (fneg y).

(** [Qsign] answers [Lt] for a positive rational (0 < q), hence the
    orientation of [inf_of]. *)
Definition fmul (x y : float64) : float64 :=
  match x, y with
  | NaN, _ | _, NaN => NaN
  | Fin a, Fin b => Fin (a * b)
  | PInf, Fin b | Fin b, PInf => inf_of (Qsign b)
  | NInf, Fin b | Fin b, NInf => inf_of (flip (Qsign b))
  | PInf, PInf | NInf, NInf => PInf
  | PInf, NInf | NInf, PInf => NInf
  end.

(** numpy division never raises: a finite value over zero is an infinity of
    the sign of the numerator, zero over zero is not-a-number. *)
Definition fdiv (x y : float64) : float64 :=
  match x, y with
  | NaN, _ | _, NaN => NaN
  | Fin a, Fin b =>
      if Qeq_bool b 0 then inf_of (Qsign a) else Fin (a / b)
  | Fin _, PInf | Fin _, NInf => Fin 0
  | PInf, Fin b => if Qeq_bool b 0 then PInf else inf_of (Qsign b)
  | NInf, Fin b => if Qeq_bool b 0 then NInf else inf_of (flip (Qsign b))
  | _, _ => NaN
  end.

(** [x > y]; every comparison with not-a-number is false. *)
Definition fgt (x y : float64) : bool :=
  match x, y with
  | NaN, _ | _, NaN => false
  | Fin a, Fin b => negb (Qle_bool a b)
  | PInf, PInf => false
  | PInf, _ => true
  | _, NInf => match x with NInf => false | _ => true end
  | _, _ => false
  end.

Definition fmax (x y : float64) : float64 := if fgt y x then y else x.
Definition fmin (x y : float64) : float64 := if fgt x y then y else x.

Definition of_Z (z : Z) : float64 := Fin (inject_Z z).
Definition of_nat (n : nat) : float64 := of_Z (Z.of_nat n).

(** ** Rounding to a number of decimals

    [numpy.round] scales by the power of ten, rounds to the nearest integer
    with ties to the even neighbour, and scales back. *)

Definition rint (q : Q) : Z :=
  let f := Qfloor q in
  match (q - inject_Z f ?= 1 # 2)%Q with
  | Lt => f
  | Gt => (f + 1)%Z
  | Eq => if Z.even f then f else (f + 1)%Z
  end.

Definition Qround2 (q : Q) : Q := Qred (rint (q * 100) # 100).

Definition round2 (x : float64) : float64 :=
  match x with
  | Fin q => Fin (Qround2 q)
  | _ => x
  end.

(** Nearest integer to the square root of a non-negative rational, ties to
    even.  [Z.sqrt (Qfloor x)] is the integer part of the root; the root lies
    below, on or above the midpoint according to how [x] compares with the
    square of the midpoint. *)
Definition rint_sqrt (x : Q) : Z :=
  let m := Z.sqrt (Qfloor x) in
  match (x ?= ((2 * m + 1) * (2 * m + 1) # 4))%Q with
  | Lt => m
  | Gt => (m + 1)%Z
  | Eq => if Z.even m then m else (m + 1)%Z
  end.

Definition Qround2_sqrt (v : Q) : Q := Qred (rint_sqrt (v * 10000) # 100).


(** ** Exceptions, frames and the monad of the detector *)

Inductive exn : Type := KeyError | IndexError | TypeError.

Inductive result (A : Type) : Type :=
  | Ok (a : A)
  | Raise (e : exn).
Arguments Ok {A} a.
Arguments Raise {A} e.

#[export] Instance result_ret : MRet result := fun A a => Ok a.
#[export] Instance result_bind : MBind result := fun A B f m =>
  match m with Ok a => f a | Raise e => Raise e end.

(** Dates are day ordinals; a column is the list of its values in index
    order. *)
Record DataFrame : Type := mkDataFrame {
  index : list Z;
  columns : gmap string (list float64)
}.

Definition len (df : DataFrame) : Z := Z.of_nat (length (index df)).

(** A computation reads and updates the caller's frame and either returns
    or raises; the frame survives a raise. *)
Definition M (A : Type) : Type := DataFrame -> DataFrame * result A.

#[export] Instance M_ret : MRet M := fun A a df => (df, Ok a).
#[export] Instance M_bind : MBind M := fun A B f m df =>
  match m df with
  | (df', Ok a) => f a df'
  | (df', Raise e) => (df', Raise e)
  end.

(** [df[name]] *)
Definition getitem (name : string) : M (list float64) := fun df =>
  match columns df !! name with
  | Some c => (df, Ok c)
  | None => (df, Raise KeyError)
  end.

(** [df[name] = col], for a series [col] on the index of [df] *)
Definition setitem (name : string) (col : list float64) : M unit := fun df =>
  (mkDataFrame (index df) (<[name := col]> (columns df)), Ok tt).

Definition get_frame : M DataFrame := fun df => (df, Ok df).

(** ** Series operations *)

Definition fsum (s : list float64) : float64 := fold_right fadd (Fin 0) s.

Definition series_div (a b : list float64) : list float64 := zip_with fdiv a b.

Definition series_gt (a : list float64) (y : float64) : list bool :=
  map (fun x => fgt x y) a.

Definition series_and (a b : list bool) : list bool := zip_with andb a b.

(** [s.rolling(window=w).mean()] with the default [min_periods = w]: no
    value until [w] observations are available, then the mean of the [w]
    observations ending at the current one. *)
Definition window (w t : nat) (s : list float64) : list float64 :=
  firstn w (skipn (t + 1 - w) s).

Definition rolling_mean (w : nat) (s : list float64) : list float64 :=
  map (fun t => if (t + 1 <? w)%nat then NaN
                else fdiv (fsum (window w t s)) (of_nat w))
      (seq 0 (length s)).

(** [s.shift(1)] and [s.pct_change()], which pandas computes as
    [s / s.shift(1) - 1]. *)
Definition shift1 (s : list float64) : list float64 := NaN :: removelast s.

Definition pct_change (s : list float64) : list float64 :=
  zip_with (fun x p => fsub (fdiv x p) (Fin 1)) s (shift1 s).

(** [df[mask].index]: the labels of the rows where the mask holds. *)
Fixpoint boolean_index (idx : list Z) (mask : list bool) : list Z :=
  match idx, mask with
  | d :: idx', b :: mask' =>
      if b then d :: boolean_index idx' mask' else boolean_index idx' mask'
  | _, _ => []
  end.

(** ** Label and position lookups *)

Fixpoint positions (idx : list Z) (label : Z) (i : nat) : list nat :=
  match idx with
  | [] => []
  | d :: idx' =>
      if (d =? label)%Z then i :: positions idx' label (S i)
      else positions idx' label (S i)
  end.

(** [df.index.get_loc(label)] is an integer only for a label that occurs
    once.  For a repeated label pandas answers a slice or a mask, and line 62
    then raises when it adds the holding period and takes the minimum; the
    model raises at the lookup. *)
Definition get_loc (idx : list Z) (label : Z) : result nat :=
  match positions idx label 0 with
  | [p] => Ok p
  | [] => Raise KeyError
  | _ => Raise TypeError
  end.

(** Python indexing of a sequence by an integer: a negative integer counts
    from the end, anything outside raises. *)
Definition py_index {A : Type} (l : list A) (i : Z) : result A :=
  let n := Z.of_nat (length l) in
  let j := if (i <? 0)%Z then (i + n)%Z else i in
  if (j <? 0)%Z then Raise IndexError
  else match nth_error l (Z.to_nat j) with
       | Some x => Ok x
       | None => Raise IndexError
       end.

(** [df.loc[label, col]], a scalar for a label that occurs once.  For a
    repeated label it is a Series, and the iteration is abandoned at the
    next line in any case; the model raises here already. *)
Definition df_loc (df : DataFrame) (label : Z) (col : string) : result float64 :=
  match columns df !! col with
  | None => Raise KeyError
  | Some c => p ← get_loc (index df) label; py_index c (Z.of_nat p)
  end.

(** [df.iloc[i][col]] *)
Definition df_iloc (df : DataFrame) (i : Z) (col : string) : result float64 :=
  _ ← py_index (index df) i;
  match columns df !! col with
  | None => Raise KeyError
  | Some c => py_index c i
  end.

(** ** analyze_breakouts *)

(** A row of the result.  The program stores the two dates formatted as
    [YYYY-MM-DD]; the model keeps the day ordinal. *)
Record TradeRecord : Type := mkTrade {
  Entry_Date : Z;
  Entry_Price : float64;
  Exit_Date : Z;
  Exit_Price : float64;
  Return_Pct : float64;
  Volume_Ratio : float64
}.

Definition exit_index (pos : nat) (holding_period : Z) (df : DataFrame) : Z :=
  Z.min (Z.of_nat pos + holding_period) (len df - 1).

Definition trade_return (entry_price exit_price : float64) : float64 :=
  fmul (fdiv (fsub exit_price entry_price) entry_price) (Fin 100).

(** The body of the [try] block, lines 60 to 74. *)
Definition simulate_trade (df : DataFrame) (holding_period : Z)
    (breakout_day : Z) : result TradeRecord :=
  entry_price ← df_loc df breakout_day "Close";
  let entry_date := breakout_day in
  pos ← get_loc (index df) breakout_day;
  let exit_date_idx := exit_index pos holding_period df in
  exit_date ← py_index (index df) exit_date_idx;
  exit_price ← df_iloc df exit_date_idx "Close";
  volume_ratio ← df_loc df breakout_day "Volume_Ratio";
  mret (mkTrade entry_date (round2 entry_price)
                exit_date (round2 exit_price)
                (round2 (trade_return entry_price exit_price))
                (round2 volume_ratio)).

(** The [for] loop: a day whose body raises is reported and skipped
    ([except Exception: ... continue]), the others append their record. *)
Fixpoint breakout_loop (df : DataFrame) (holding_period : Z)
    (breakout_days : list Z) (breakout_results : list TradeRecord)
    : list TradeRecord :=
  match breakout_days with
  | [] => breakout_results
  | breakout_day :: rest =>
      match simulate_trade df holding_period breakout_day with
      | Ok r => breakout_loop df holding_period rest (breakout_results ++ [r])
      | Raise _ => breakout_loop df holding_period rest breakout_results
      end
  end.

Definition breakout_condition (volume_ratio daily_return : list float64)
    (volume_threshold price_threshold : Q) : list bool :=
  series_and (series_gt volume_ratio (fdiv (Fin volume_threshold) (Fin 100)))
             (series_gt daily_return (fdiv (Fin price_threshold) (Fin 100))).

Definition analyze_breakouts (volume_threshold price_threshold : Q)
    (holding_period : Z) : M (list TradeRecord) :=
  volume ← getitem "Volume";
  _ ← setitem "Volume_MA20" (rolling_mean 20 volume);
  close ← getitem "Close";
  _ ← setitem "Daily_Return" (pct_change close);
  volume ← getitem "Volume";
  volume_ma20 ← getitem "Volume_MA20";
  _ ← setitem "Volume_Ratio" (series_div volume volume_ma20);
  volume_ratio ← getitem "Volume_Ratio";
  daily_return ← getitem "Daily_Return";
  let condition :=
    breakout_condition volume_ratio daily_return
                       volume_threshold price_threshold in
  df ← get_frame;
  let breakout_days := boolean_index (index df) condition in
  mret (breakout_loop df holding_period breakout_days []).

(** ** create_summary_stats *)

Record SummaryStatistics : Type := mkSummary {
  Total_Trades : float64;
  Win_Rate : float64;
  Average_Return : float64;
  Max_Return : float64;
  Min_Return : float64;
  Std_Dev : float64
}.

(** pandas reductions skip not-a-number entries ([skipna=True]). *)
Definition dropna (s : list float64) : list float64 :=
  List.filter (fun x => negb (isnan x)) s.

Definition series_mean (s : list float64) : float64 :=
  match dropna s with
  | [] => NaN
  | v => fdiv (fsum v) (of_nat (length v))
  end.

(** Mean of a boolean series: the fraction of [True]. *)
Definition bool_mean (b : list bool) : float64 :=
  fdiv (of_nat (length (List.filter id b))) (of_nat (length b)).

Definition series_max (s : list float64) : float64 :=
  match dropna s with
  | [] => NaN
  | x :: v => fold_left fmax v x
  end.

Definition series_min (s : list float64) : float64 :=
  match dropna s with
  | [] => NaN
  | x :: v => fold_left fmin v x
  end.

(** Sample variance with [ddof = 1]: not-a-number unless more than one
    observation remains. *)
Definition series_var (s : list float64) : float64 :=
  let v := dropna s in
  if (length v <=? 1)%nat then NaN
  else
    let avg := fdiv (fsum v) (of_nat (length v)) in
    fdiv (fsum (map (fun x => fmul (fsub avg x) (fsub avg x)) v))
         (of_nat (length v - 1)).

(** An entry of the unrounded summary.  The rationals are not closed under
    square roots, so the standard deviation is carried as the root of the
    variance until [round(2)] turns it into a number of hundredths. *)
Inductive stat : Type :=
  | Plain (x : float64)
  | Root (v : float64).

Definition series_std (s : list float64) : stat := Root (series_var s).

Definition sqrt_round2 (v : float64) : float64 :=
  match v with
  | Fin q => if Qle_bool 0 q then Fin (Qround2_sqrt q) else NaN
  | PInf => PInf
  | _ => NaN
  end.

Definition stat_round2 (s : stat) : float64 :=
  match s with
  | Plain x => round2 x
  | Root v => sqrt_round2 v
  end.

Definition zero_summary : SummaryStatistics :=
  mkSummary (Fin 0) (Fin 0) (Fin 0) (Fin 0) (Fin 0) (Fin 0).

(** The dictionary of lines 96 to 103, before it is rounded. *)
Definition summary_dict (results_df : list TradeRecord) : list stat :=
  let returns := map Return_Pct results_df in
  [ Plain (of_nat (length results_df));
    Plain (fmul (bool_mean (series_gt returns (Fin 0))) (Fin 100));
    Plain (series_mean returns);
    Plain (series_max returns);
    Plain (series_min returns);
    series_std returns ].

Definition summary_of (d : list float64) : SummaryStatistics :=
  mkSummary (nth 0 d NaN) (nth 1 d NaN) (nth 2 d NaN)
            (nth 3 d NaN) (nth 4 d NaN) (nth 5 d NaN).

Definition create_summary_stats (results_df : list TradeRecord)
    : SummaryStatistics :=
  if (length results_df =? 0)%nat then zero_summary
  else summary_of (map stat_round2 (summary_dict results_df)).


(** ** The data model of the specification

    The definitions below restate, position by position, what the
    specification says about a series ([volumeMovingAverage20],
    [volumeRatio], [dailyReturn], [exitIndex], the statistics of a list of
    returns), and name the closed forms ([trades], [with_derived]) that the
    theorems prove the program above to compute. *)


(** Numerical equality: the same special value, or equal rationals. *)
Definition feq (x y : float64) : Prop :=
  match x, y with
  | Fin a, Fin b => a == b
  | PInf, PInf | NInf, NInf | NaN, NaN => True
  | _, _ => False
  end.

Fixpoint increasing (l : list Z) : bool :=
  match l with
  | a :: (b :: _) as l' => (a <? b)%Z && increasing l'
  | _ => true
  end.

Definition col (df : DataFrame) (name : string) : list float64 :=
  default [] (columns df !! name).

Definition nrows (df : DataFrame) : nat := length (index df).
Definition date_at (df : DataFrame) (t : nat) : Z := nth t (index df) 0%Z.
Definition close_at (df : DataFrame) (t : nat) : float64 :=
  nth t (col df "Close") NaN.
Definition volume_at (df : DataFrame) (t : nat) : float64 :=
  nth t (col df "Volume") NaN.

(** An input series: the Close and Volume columns are present, as long as
    the index and hold numbers, and the dates increase strictly. *)
Definition wf_series (df : DataFrame) : bool :=
  match columns df !! "Close", columns df !! "Volume" with
  | Some close, Some volume =>
      (length close =? nrows df)%nat && (length volume =? nrows df)%nat
      && forallb is_finite close && forallb is_finite volume
      && increasing (index df)
  | _, _ => false
  end.

(** Mean of the volume over the positions [t-19 .. t]; no value for the
    first 19 positions. *)
Definition volumeMovingAverage20 (df : DataFrame) (t : nat) : float64 :=
  if (t <? 19)%nat then NaN
  else fdiv (fsum (map (volume_at df) (seq (t - 19) 20))) (Fin 20).

Definition volumeRatio (df : DataFrame) (t : nat) : float64 :=
  fdiv (volume_at df t) (volumeMovingAverage20 df t).

(** [(close[t] - close[t-1]) / close[t-1]]; no value at the first
    position. *)
Definition dailyReturn (df : DataFrame) (t : nat) : float64 :=
  match t with
  | O => NaN
  | S p => fdiv (fsub (close_at df t) (close_at df p)) (close_at df p)
  end.


Definition is_breakout (df : DataFrame) (vt pt : Q) (t : nat) : bool :=
  fgt (volumeRatio df t) (Fin (vt / 100))
  && fgt (dailyReturn df t) (Fin (pt / 100)).

(** The qualifying positions, in ascending order. *)
Definition qualifying (df : DataFrame) (vt pt : Q) : list nat :=
  List.filter (is_breakout df vt pt) (seq 0 (nrows df)).

(** Where line 62 to 64 land for the entry at position [t] of a series of
    [n] days: the clamped sum, read as a Python index. *)
Definition exit_position (n t : nat) (h : Z) : option nat :=
  let e := Z.min (Z.of_nat t + h) (Z.of_nat n - 1) in
  let j := if (e <? 0)%Z then (e + Z.of_nat n)%Z else e in
  if (j <? 0)%Z then None else Some (Z.to_nat j).

(** The record of an entry at position [t] that exits at position [e]. *)
Definition trade_at (df : DataFrame) (t e : nat) : TradeRecord :=
  mkTrade (date_at df t) (round2 (close_at df t))
          (date_at df e) (round2 (close_at df e))
          (round2 (trade_return (close_at df t) (close_at df e)))
          (round2 (volumeRatio df t)).

Definition trades (df : DataFrame) (vt pt : Q) (h : Z) : list TradeRecord :=
  flat_map (fun t => match exit_position (nrows df) t h with
                     | Some e => [trade_at df t e]
                     | None => []
                     end)
           (qualifying df vt pt).

(** The frame the detector leaves behind. *)
Definition with_derived (df : DataFrame) : DataFrame :=
  let volume := col df "Volume" in
  let volume_ma20 := rolling_mean 20 volume in
  mkDataFrame (index df)
    (<["Volume_Ratio" := series_div volume volume_ma20]>
       (<["Daily_Return" := pct_change (col df "Close")]>
          (<["Volume_MA20" := volume_ma20]> (columns df)))).

(** [x] is a value strictly above the rational [q]. *)
Definition exceeds (x : float64) (q : Q) : Prop :=
  match x with
  | Fin a => q < a
  | PInf => True
  | NInf | NaN => False
  end.

Definition last_index (df : DataFrame) : nat := (nrows df - 1)%nat.

(** [min(t + holdingPeriodDays, lastIndex)] *)
Definition exitIndex (df : DataFrame) (t : nat) (h : Z) : nat :=
  Nat.min (t + Z.to_nat h) (last_index df).

Definition derived_names : list string :=
  ["Volume_MA20"; "Daily_Return"; "Volume_Ratio"]%string.





(** ** Sample frames *)

Definition flat (n : nat) (q : Q) : list float64 := repeat (Fin q) n.

Definition frame_of (dates : list Z) (close volume : list float64) : DataFrame :=
  mkDataFrame dates (<["Close" := close]> (<["Volume" := volume]> ∅)).

Definition days (n : nat) : list Z := map Z.of_nat (seq 0 n).

(** Twenty quiet days, a day with three times the volume and a 3% rise, and
    four more quiet days. *)
Definition spike_frame : DataFrame :=
  frame_of (days 25)
           (flat 20 100 ++ flat 5 103)
           (flat 20 1000 ++ [Fin 3000] ++ flat 4 1000).

(** Two breakout days in a row: the volume triples on days 20 and 21 while
    the close rises by 3% and then by a further 4%. *)
Definition double_frame : DataFrame :=
  frame_of (days 25)
           (flat 20 100 ++ [Fin 103; Fin (10712 # 100)] ++ flat 3 (10712 # 100))
           (flat 20 1000 ++ [Fin 3000; Fin 3000] ++ flat 3 1000).


(** Nineteen days: one short of the first moving average. *)
Definition short_frame : DataFrame :=
  frame_of (days 19) (flat 18 100 ++ [Fin 200]) (flat 18 1000 ++ [Fin 9000]).

Definition trade_with_return (x : float64) : TradeRecord :=
  mkTrade 0 (Fin 1) 1 (Fin 1) x (Fin 1).

Definition three_trades : list TradeRecord :=
  map trade_with_return [Fin 5; Fin (-3); Fin (1 # 4)].

(** A breakout on day 20 followed by a rise of 0.004 on a close of 103. *)
Definition penny_frame : DataFrame :=
  frame_of (days 22)
           (flat 20 100 ++ [Fin 103; Fin (103004 # 1000)])
           (flat 20 1000 ++ [Fin 3000; Fin 1000]).

(** [spike_frame] with the date of day 20 repeated on day 21. *)
Definition repeated_date_frame : DataFrame :=
  mkDataFrame (map Z.of_nat (seq 0 21) ++ [20; 22; 23; 24]%Z)
              (columns spike_frame).

(** [spike_frame] without its Close column. *)
Definition no_close_frame : DataFrame :=
  mkDataFrame (index spike_frame) (delete "Close" (columns spike_frame)).


(** [spike_frame] without its Volume column. *)
Definition no_volume_frame : DataFrame :=
  mkDataFrame (index spike_frame) (delete "Volume" (columns spike_frame)).

(** ** The host script: ticker input, data fetch, per-ticker report

    Text is a list of characters.  The model of [strip] and [upper] is that
    of Python on ASCII text; the theorems about them assume ASCII input. *)

From Stdlib Require Import Ascii.

Definition text : Type := list ascii.

Definition code (c : ascii) : nat := nat_of_ascii c.

Definition is_ascii (c : ascii) : bool := (code c <? 128)%nat.

(** [str.isspace] on ASCII: tab to carriage return, the four separators
    28 to 31, and the space. *)
Definition is_space (c : ascii) : bool :=
  ((9 <=? code c) && (code c <=? 13) || (28 <=? code c) && (code c <=? 32))%nat.

(** [str.upper] on one ASCII character. *)
Definition upper_char (c : ascii) : ascii :=
  if ((97 <=? code c) && (code c <=? 122))%nat
  then ascii_of_nat (code c - 32) else c.

Definition upper (s : text) : text := map upper_char s.

Fixpoint lstrip (s : text) : text :=
  match s with
  | c :: s' => if is_space c then lstrip s' else s
  | [] => []
  end.

Fixpoint rstrip (s : text) : text :=
  match s with
  | [] => []
  | c :: s' =>
      match rstrip s' with
      | [] => if is_space c then [] else [c]
      | r => c :: r
      end
  end.

(** [s.strip()] *)
Definition strip (s : text) : text := rstrip (lstrip s).

(** The text does not start with whitespace. *)
Definition clean_head (s : text) : Prop :=
  match s with [] => True | c :: _ => is_space c = false end.

(** [s.split(sep)] for a one-character separator: the pieces between the
    separators, empty pieces included; the empty text gives one empty
    piece. *)
Fixpoint split (sep : ascii) (s : text) : list text :=
  match s with
  | [] => [[]]
  | c :: s' =>
      if Ascii.eqb c sep then [] :: split sep s'
      else match split sep s' with
           | w :: ws => (c :: w) :: ws
           | [] => [[c]]
           end
  end.

Definition comma : ascii := ascii_of_nat 44.

Definition nonblank (t : text) : bool :=
  match strip t with [] => false | _ => true end.

(** Line 110:
    [[t.strip().upper() for t in ticker_input.split(',') if t.strip()]] *)
Definition parse_tickers (ticker_input : text) : list text :=
  map (fun t => upper (strip t))
      (List.filter nonblank (split comma ticker_input)).

(** [df.empty]: no rows or no columns. *)
Definition df_empty (df : DataFrame) : bool :=
  (length (index df) =? 0)%nat || bool_decide (columns df = ∅).

(** What the tab of one ticker shows. *)
Inductive outcome : Type :=
  | NoData
  | NoBreakouts
  | Report (summary_stats : SummaryStatistics) (results_df : list TradeRecord).

Section Host.

(** The market-data provider, [yf.Ticker(ticker).history(start, end)]: an
    external service that answers with a frame or raises. *)
Variable history : text -> Z -> Z -> result DataFrame.

(** [get_stock_data]: the fetch starts 30 days before the requested start;
    any exception of the provider is reported and becomes [None]. *)
Definition get_stock_data (ticker : text) (start_date end_date : Z)
    : option DataFrame :=
  let adjusted_start := (start_date - 30)%Z in
  match history ticker adjusted_start end_date with
  | Ok df => Some df
  | Raise _ => None
  end.

(** Lines 132 to 182, the body of the loop over the tickers.  An exception
    of the detector is not caught here. *)
Definition ticker_report (ticker : text) (start_date end_date : Z)
    (volume_threshold price_threshold : Q) (holding_period : Z)
    : result outcome :=
  match get_stock_data ticker start_date end_date with
  | None => Ok NoData
  | Some df =>
      if df_empty df then Ok NoData
      else
        match snd (analyze_breakouts volume_threshold price_threshold
                                     holding_period df) with
        | Raise e => Raise e
        | Ok results_df =>
            match results_df with
            | [] => Ok NoBreakouts
            | _ => Ok (Report (create_summary_stats results_df) results_df)
            end
        end
  end.

(** Lines 127 to 184: the tabs are filled in the order of the tickers; an
    uncaught exception ends the run and leaves the tabs filled so far. *)
Fixpoint generate_report (tickers : list text) (start_date end_date : Z)
    (vt pt : Q) (h : Z) : list (text * outcome) * option exn :=
  match tickers with
  | [] => ([], None)
  | ticker :: rest =>
      match ticker_report ticker start_date end_date vt pt h with
      | Raise e => ([], Some e)
      | Ok o =>
          let '(shown, crash) := generate_report rest start_date end_date vt pt h in
          ((ticker, o) :: shown, crash)
      end
  end.

End Host.

(** A provider that knows one symbol. *)
Definition sample_history (ticker : text) (start_date end_date : Z)
    : result DataFrame :=
  if decide (ticker = list_ascii_of_string "AAPL")
  then Ok spike_frame else Raise KeyError.

(** A provider whose frame for one symbol lacks the Volume column. *)
Definition broken_history (ticker : text) (start_date end_date : Z)
    : result DataFrame :=
  if decide (ticker = list_ascii_of_string "BAD")
  then Ok no_volume_frame else sample_history ticker start_date end_date.

(** * Properties *)

(** ** Rounding *)

Example rint_half_even : (rint (5 # 2), rint (7 # 2), rint (-5 # 2)) = (2, 4, -2)%Z.
Proof. reflexivity. Qed.

Example Qround2_example : Qround2 (285714 # 100000) = (143 # 50).
Proof. reflexivity. Qed.

Example Qround2_sqrt_example : Qround2_sqrt 2 = (141 # 100).
Proof. reflexivity. Qed.


Section Rounding.

Lemma rint_bounds (q : Q) :
  inject_Z (rint q) - (1 # 2) <= q /\ q <= inject_Z (rint q) + (1 # 2).
Proof.
  unfold rint.
  pose proof (Qfloor_le q) as Hlo.
  pose proof (Qlt_floor q) as Hhi.
  rewrite inject_Z_plus in Hhi. change (inject_Z 1) with 1 in Hhi.
  destruct (Qcompare_spec (q - inject_Z (Qfloor q)) (1 # 2)) as [He | Hl | Hg].
  - destruct (Z.even (Qfloor q)).
    + split; lra.
    + rewrite inject_Z_plus. change (inject_Z 1) with 1. split; lra.
  - split; lra.
  - rewrite inject_Z_plus. change (inject_Z 1) with 1. split; lra.
Qed.

Lemma Qfloor_Qeq (p q : Q) : p == q -> Qfloor p = Qfloor q.
Proof. intros H. now rewrite H. Qed.

Lemma rint_Qeq (p q : Q) : p == q -> rint p = rint q.
Proof.
  intros H. unfold rint. rewrite (Qfloor_Qeq p q H).
  assert (Hc : (p - inject_Z (Qfloor q) ?= 1 # 2) = (q - inject_Z (Qfloor q) ?= 1 # 2)).
  { now rewrite H. }
  now rewrite Hc.
Qed.


Lemma Qround2_Qeq (p q : Q) : p == q -> Qround2 p = Qround2 q.
Proof.
  intros H. unfold Qround2. f_equal. f_equal. apply rint_Qeq. now rewrite H.
Qed.

Lemma Qround2_hundredths (q : Q) : Qround2 q == rint (q * 100) # 100.
Proof. unfold Qround2. apply Qred_correct. Qed.

(** The rounded value is a whole number of hundredths at most half a
    hundredth away. *)
Lemma Qround2_near (q : Q) : Qabs (Qround2 q - q) <= 1 # 200.
Proof.
  rewrite Qround2_hundredths.
  destruct (rint_bounds (q * 100)) as [Hlo Hhi].
  assert (Hk : rint (q * 100) # 100 == inject_Z (rint (q * 100)) * (1 # 100)).
  { unfold Qeq, Qmult, inject_Z. simpl. lia. }
  rewrite Hk. apply Qabs_Qle_condition.
  revert Hlo Hhi. generalize (inject_Z (rint (q * 100))). intros k Hlo Hhi.
  split; lra.
Qed.




End Rounding.

Section RootRounding.





End RootRounding.

(** ** Arithmetic on float64 *)


Section FloatFacts.


Lemma forallb_finite (s : list float64) :
  forallb is_finite s = true -> exists qs, s = map Fin qs.
Proof.
  induction s as [| x s IH]; simpl; intros H.
  - now exists [].
  - apply andb_prop in H as [Hx Hs]. destruct (IH Hs) as [qs ->].
    destruct x as [q | | |]; try discriminate. now exists (q :: qs).
Qed.

Lemma fgt_Fin (a b : Q) : fgt (Fin a) (Fin b) = true <-> b < a.
Proof.
  simpl. rewrite negb_true_iff. split.
  - intros H. apply Qnot_le_lt. intros Hle.
    apply Qle_bool_iff in Hle. congruence.
  - intros H. destruct (Qle_bool a b) eqn:E; [| reflexivity].
    apply Qle_bool_iff in E. lra.
Qed.

Lemma fgt_defined (x y : float64) : fgt x y = true -> isnan x = false.
Proof. destruct x; simpl; try reflexivity. discriminate. Qed.

Lemma Qle_bool_Qeq (a a' b : Q) : a == a' -> Qle_bool a b = Qle_bool a' b.
Proof.
  intros H. destruct (Qle_bool a b) eqn:E, (Qle_bool a' b) eqn:E';
    try reflexivity.
  - apply Qle_bool_iff in E. rewrite H in E. apply Qle_bool_iff in E. congruence.
  - apply Qle_bool_iff in E'. rewrite <- H in E'. apply Qle_bool_iff in E'.
    congruence.
Qed.

Lemma fgt_feq (x x' y : float64) : feq x x' -> fgt x y = fgt x' y.
Proof.
  destruct x, x'; simpl; try contradiction; try reflexivity.
  intros H. destruct y; try reflexivity. simpl. f_equal.
  now apply Qle_bool_Qeq.
Qed.

Lemma Qeq_bool_false (b : Q) : Qeq_bool b 0 = false -> ~ b == 0.
Proof. intros H. now apply Qeq_bool_neq. Qed.

Lemma Qsign_Qeq (a b : Q) : a == b -> Qsign a = Qsign b.
Proof. intros H. unfold Qsign. now rewrite H. Qed.

(** The quotient form of the daily return computed by pandas and the
    difference form of the specification denote the same number. *)
Lemma pct_change_forms (a b : Q) :
  feq (fsub (fdiv (Fin a) (Fin b)) (Fin 1))
      (fdiv (fsub (Fin a) (Fin b)) (Fin b)).
Proof.
  simpl. destruct (Qeq_bool b 0) eqn:Eb.
  - apply Qeq_bool_iff in Eb.
    rewrite (Qsign_Qeq (a + - b) a) by (rewrite Eb; ring).
    destruct (Qsign a); simpl; exact I.
  - apply Qeq_bool_false in Eb. simpl. field. exact Eb.
Qed.

Lemma trade_return_Fin (a b : Q) :
  ~ a == 0 -> trade_return (Fin a) (Fin b) = Fin ((b + - a) / a * 100).
Proof.
  intros Ha. unfold trade_return. simpl.
  destruct (Qeq_bool a 0) eqn:E; [| reflexivity].
  apply Qeq_bool_iff in E. contradiction.
Qed.



End FloatFacts.

(** ** Lists, windows and lookups *)

Section SeriesFacts.

Lemma nth_zip_with {A B C : Type} (f : A -> B -> C) (a : list A) (b : list B)
    (t : nat) (da : A) (db : B) (dc : C) :
  (t < length a)%nat -> (t < length b)%nat ->
  nth t (zip_with f a b) dc = f (nth t a da) (nth t b db).
Proof.
  revert b t. induction a as [| x a IH]; intros [| y b] t Ha Hb;
    simpl in *; try lia.
  destruct t as [| t]; [reflexivity |]. apply IH; lia.
Qed.

Lemma nth_removelast {A : Type} (l : list A) (t : nat) (d : A) :
  (S t < length l)%nat -> nth t (removelast l) d = nth t l d.
Proof.
  revert t. induction l as [| x l IH]; intros t H; simpl in *; [lia |].
  destruct l as [| y l]; [simpl in *; lia |].
  destruct t as [| t]; [reflexivity |]. apply IH. simpl in *. lia.
Qed.

Lemma length_shift1 (s : list float64) :
  s <> [] -> length (shift1 s) = length s.
Proof.
  intros H. unfold shift1. cbn [length].
  rewrite removelast_firstn_len, length_firstn.
  destruct s; [contradiction | simpl; lia].
Qed.

Lemma length_pct_change (s : list float64) :
  length (pct_change s) = length s.
Proof.
  unfold pct_change. rewrite length_zip_with.
  destruct s as [| x s]; [reflexivity |].
  rewrite length_shift1 by discriminate. lia.
Qed.

Lemma nth_pct_change (s : list float64) (t : nat) :
  (t < length s)%nat ->
  nth t (pct_change s) NaN =
  match t with
  | O => NaN
  | S p => fsub (fdiv (nth t s NaN) (nth p s NaN)) (Fin 1)
  end.
Proof.
  intros Ht. unfold pct_change.
  assert (Hne : s <> []) by (destruct s; [simpl in Ht; lia | discriminate]).
  rewrite (nth_zip_with _ s (shift1 s) t NaN NaN NaN Ht)
    by (rewrite length_shift1; assumption).
  destruct t as [| p].
  - unfold shift1. cbn [nth]. now destruct (nth 0 s NaN).
  - unfold shift1. cbn [nth]. now rewrite nth_removelast.
Qed.

Lemma length_rolling_mean (w : nat) (s : list float64) :
  length (rolling_mean w s) = length s.
Proof. unfold rolling_mean. now rewrite length_map, length_seq. Qed.

Lemma window_nth (w t : nat) (s : list float64) :
  (w <= t + 1)%nat -> (t < length s)%nat ->
  window w t s = map (fun i => nth i s NaN) (seq (t + 1 - w) w).
Proof.
  intros Hw Ht. unfold window.
  apply nth_ext with (d := NaN) (d' := NaN).
  - rewrite length_firstn, length_skipn, length_map, length_seq. lia.
  - intros i Hi. rewrite length_firstn, length_skipn in Hi.
    assert (Hiw : (i < w)%nat) by lia.
    rewrite nth_firstn. destruct (i <? w)%nat eqn:E;
      [| apply Nat.ltb_ge in E; lia].
    rewrite nth_skipn.
    set (f := fun i => nth i s NaN).
    rewrite (nth_indep (map f (seq (t + 1 - w) w)) NaN (f 0%nat))
      by (rewrite length_map, length_seq; lia).
    rewrite (map_nth f), seq_nth by lia. reflexivity.
Qed.

Lemma nth_rolling_mean (w t : nat) (s : list float64) :
  (t < length s)%nat ->
  nth t (rolling_mean w s) NaN =
  if (t + 1 <? w)%nat then NaN
  else fdiv (fsum (map (fun i => nth i s NaN) (seq (t + 1 - w) w))) (of_nat w).
Proof.
  intros Ht. unfold rolling_mean.
  set (f := fun t => if (t + 1 <? w)%nat then NaN
                     else fdiv (fsum (window w t s)) (of_nat w)).
  rewrite (nth_indep (map f (seq 0 (length s))) NaN (f 0%nat))
    by (rewrite length_map, length_seq; lia).
  rewrite (map_nth f), seq_nth by lia. unfold f. cbn [Nat.add].
  destruct (t + 1 <? w)%nat eqn:E; [reflexivity |].
  apply Nat.ltb_ge in E. now rewrite window_nth.
Qed.

End SeriesFacts.

(** ** Lookups by label and by position *)


Section LookupFacts.

Lemma increasing_cons (a b : Z) (l : list Z) :
  increasing (a :: b :: l) = (a <? b)%Z && increasing (b :: l).
Proof. reflexivity. Qed.

Lemma increasing_tail (a : Z) (l : list Z) :
  increasing (a :: l) = true -> increasing l = true.
Proof.
  destruct l as [| b l]; [reflexivity |].
  rewrite increasing_cons. intros H. now apply andb_prop in H.
Qed.

Lemma increasing_above (a : Z) (l : list Z) :
  increasing (a :: l) = true -> Forall (fun x => (a < x)%Z) l.
Proof.
  revert a. induction l as [| b l IH]; intros a H; [constructor |].
  rewrite increasing_cons in H. apply andb_prop in H as [Hab Hl].
  apply Z.ltb_lt in Hab. constructor; [exact Hab |].
  specialize (IH b Hl).
  eapply List.Forall_impl; [| exact IH]. cbn. intros x Hx. lia.
Qed.

Lemma increasing_nth (l : list Z) (i j : nat) :
  increasing l = true -> (i < j)%nat -> (j < length l)%nat ->
  (nth i l 0 < nth j l 0)%Z.
Proof.
  revert i j. induction l as [| a l IH]; intros i j H Hij Hj;
    [simpl in Hj; lia |].
  destruct j as [| j]; [lia |]. simpl in Hj.
  destruct i as [| i].
  - cbn [nth]. pose proof (increasing_above a l H) as Hall.
    rewrite List.Forall_forall in Hall. apply Hall. apply nth_In. lia.
  - cbn [nth]. apply IH; [now apply increasing_tail in H | lia | lia].
Qed.

Lemma positions_absent (l : list Z) (label : Z) (i : nat) :
  Forall (fun x => (label < x)%Z) l -> positions l label i = [].
Proof.
  revert i. induction l as [| a l IH]; intros i H; [reflexivity |].
  inversion H as [| ? ? Ha Hl]; subst. cbn [positions].
  destruct (Z.eqb_spec a label); [lia | now apply IH].
Qed.

Lemma positions_nth (l : list Z) (t i : nat) :
  increasing l = true -> (t < length l)%nat ->
  positions l (nth t l 0%Z) i = [(i + t)%nat].
Proof.
  revert t i. induction l as [| a l IH]; intros t i H Ht;
    [simpl in Ht; lia |].
  destruct t as [| t]; cbn [nth positions].
  - rewrite Z.eqb_refl.
    rewrite positions_absent by now apply increasing_above.
    f_equal. lia.
  - simpl in Ht.
    assert (Hlt : (a < nth t l 0)%Z).
    { pose proof (increasing_above a l H) as Hall.
      rewrite List.Forall_forall in Hall. apply Hall. apply nth_In. lia. }
    destruct (Z.eqb_spec a (nth t l 0%Z)); [lia |].
    rewrite IH by (try (now apply increasing_tail in H); lia).
    f_equal. lia.
Qed.

Lemma get_loc_nth (l : list Z) (t : nat) :
  increasing l = true -> (t < length l)%nat ->
  get_loc l (nth t l 0%Z) = Ok t.
Proof.
  intros H Ht. unfold get_loc. now rewrite positions_nth.
Qed.

Lemma py_index_nat {A : Type} (l : list A) (i : nat) (d : A) :
  (i < length l)%nat -> py_index l (Z.of_nat i) = Ok (nth i l d).
Proof.
  intros Hi. unfold py_index.
  destruct (Z.ltb_spec (Z.of_nat i) 0); [lia |].
  destruct (Z.ltb_spec (Z.of_nat i) 0); [lia |].
  rewrite Nat2Z.id. now rewrite (nth_error_nth' l d Hi).
Qed.


Lemma py_index_exit {A : Type} (l : list A) (t : nat) (h : Z) (d : A) :
  (t < length l)%nat ->
  py_index l (Z.min (Z.of_nat t + h) (Z.of_nat (length l) - 1)) =
  match exit_position (length l) t h with
  | Some e => Ok (nth e l d)
  | None => Raise IndexError
  end.
Proof.
  intros Ht. unfold exit_position, py_index.
  set (e := Z.min (Z.of_nat t + h) (Z.of_nat (length l) - 1)).
  assert (He : (e <= Z.of_nat (length l) - 1)%Z) by (unfold e; lia).
  destruct (Z.ltb_spec e 0) as [Hneg | Hpos].
  - destruct (Z.ltb_spec (e + Z.of_nat (length l)) 0); [reflexivity |].
    now rewrite (nth_error_nth' l d) by lia.
  - destruct (Z.ltb_spec e 0); [lia |].
    now rewrite (nth_error_nth' l d) by lia.
Qed.

Lemma exit_position_forward (n t : nat) (h : Z) :
  (0 <= h)%Z -> (t < n)%nat ->
  exit_position n t h = Some (Nat.min (t + Z.to_nat h) (n - 1)).
Proof.
  intros Hh Ht. unfold exit_position.
  destruct (Z.ltb_spec (Z.min (Z.of_nat t + h) (Z.of_nat n - 1)) 0); [lia |].
  destruct (Z.ltb_spec (Z.min (Z.of_nat t + h) (Z.of_nat n - 1)) 0); [lia |].
  f_equal. lia.
Qed.

Lemma filter_map_comm {A B : Type} (f : A -> B) (g : B -> bool) (l : list A) :
  List.filter g (map f l) = map f (List.filter (fun x => g (f x)) l).
Proof.
  induction l as [| x l IH]; [reflexivity |].
  cbn [map List.filter]. destruct (g (f x)); cbn [map]; now rewrite IH.
Qed.

Lemma boolean_index_positions (idx : list Z) (mask : list bool) :
  length mask = length idx ->
  boolean_index idx mask =
  map (fun t => nth t idx 0%Z)
      (List.filter (fun t => nth t mask false) (seq 0 (length idx))).
Proof.
  revert mask. induction idx as [| d idx IH]; intros [| b mask] Hlen;
    simpl in Hlen; try discriminate; [reflexivity |].
  injection Hlen as Hlen. cbn [boolean_index length seq].
  rewrite <- seq_shift. cbn [List.filter].
  rewrite filter_map_comm.
  assert (Hshift :
    map (fun t => nth t (d :: idx) 0%Z)
        (map S (List.filter (fun x => nth (S x) (b :: mask) false)
                            (seq 0 (length idx))))
    = map (fun t => nth t idx 0%Z)
        (List.filter (fun t => nth t mask false) (seq 0 (length idx)))).
  { rewrite map_map. reflexivity. }
  rewrite (IH mask Hlen).
  change (nth 0 (b :: mask) false) with b.
  destruct b; cbn [map]; rewrite Hshift; reflexivity.
Qed.

Lemma flat_map_ext_In {A B : Type} (f g : A -> list B) (l : list A) :
  (forall x, In x l -> f x = g x) -> flat_map f l = flat_map g l.
Proof.
  induction l as [| x l IH]; intros H; [reflexivity |].
  cbn [flat_map]. rewrite (H x) by now left.
  rewrite IH; [reflexivity |]. intros y Hy. apply H. now right.
Qed.

Lemma breakout_loop_app (df : DataFrame) (h : Z) (days : list Z)
    (acc : list TradeRecord) :
  breakout_loop df h days acc =
  acc ++ flat_map (fun d => match simulate_trade df h d with
                            | Ok r => [r]
                            | Raise _ => []
                            end) days.
Proof.
  revert acc. induction days as [| d days IH]; intros acc; cbn [breakout_loop flat_map].
  - now rewrite app_nil_r.
  - destruct (simulate_trade df h d) as [r | e]; rewrite IH.
    + now rewrite <- app_assoc.
    + reflexivity.
Qed.

End LookupFacts.

(** ** The detector on an input series *)

Lemma bind_getitem {A : Type} (name : string) (c : list float64)
    (k : list float64 -> M A) (df : DataFrame) :
  columns df !! name = Some c -> (getitem name ≫= k) df = k c df.
Proof. intros H. unfold mbind, M_bind, getitem. now rewrite H. Qed.

Lemma bind_setitem {A : Type} (name : string) (c : list float64)
    (k : unit -> M A) (df : DataFrame) :
  (setitem name c ≫= k) df =
  k tt (mkDataFrame (index df) (<[name := c]> (columns df))).
Proof. reflexivity. Qed.

Lemma bind_get_frame {A : Type} (k : DataFrame -> M A) (df : DataFrame) :
  (get_frame ≫= k) df = k df df.
Proof. reflexivity. Qed.

Section Detector.

Variable df : DataFrame.
Hypothesis Hwf : wf_series df = true.

Lemma wf_columns :
  exists cq vq,
    columns df !! "Close" = Some (map Fin cq) /\
    columns df !! "Volume" = Some (map Fin vq) /\
    length cq = nrows df /\ length vq = nrows df /\
    increasing (index df) = true.
Proof.
  unfold wf_series in Hwf.
  destruct (columns df !! "Close") as [c |] eqn:Ec; [| discriminate].
  destruct (columns df !! "Volume") as [v |] eqn:Ev; [| discriminate].
  repeat (apply andb_prop in Hwf as [Hwf ?]).
  destruct (forallb_finite c) as [cq ->]; [assumption |].
  destruct (forallb_finite v) as [vq ->]; [assumption |].
  exists cq, vq. rewrite !length_map in *.
  repeat split; try assumption; now apply Nat.eqb_eq.
Qed.

Lemma analyze_breakouts_unfold (vt pt : Q) (h : Z) :
  analyze_breakouts vt pt h df =
  (with_derived df,
   Ok (breakout_loop (with_derived df) h
         (boolean_index (index df)
            (breakout_condition
               (series_div (col df "Volume") (rolling_mean 20 (col df "Volume")))
               (pct_change (col df "Close")) vt pt))
         [])).
Proof.
  destruct wf_columns as (cq & vq & Hc & Hv & _).
  unfold with_derived, col. rewrite Hc, Hv. cbn [default from_option id].
  unfold analyze_breakouts.
  rewrite (bind_getitem "Volume" _ _ _ Hv), bind_setitem.
  rewrite (bind_getitem "Close" (map Fin cq))
    by (cbn [columns]; now rewrite lookup_insert_ne).
  rewrite bind_setitem.
  rewrite (bind_getitem "Volume" (map Fin vq))
    by (cbn [columns]; now rewrite !lookup_insert_ne).
  rewrite (bind_getitem "Volume_MA20" (rolling_mean 20 (map Fin vq)))
    by (cbn [columns]; now rewrite lookup_insert_ne, lookup_insert_eq).
  rewrite bind_setitem.
  rewrite (bind_getitem "Volume_Ratio" _ _ _ (lookup_insert_eq _ _ _)).
  rewrite (bind_getitem "Daily_Return" (pct_change (map Fin cq)))
    by (cbn [columns]; now rewrite lookup_insert_ne, lookup_insert_eq).
  rewrite bind_get_frame. reflexivity.
Qed.

Lemma length_close : length (col df "Close") = nrows df.
Proof.
  destruct wf_columns as (cq & vq & Hc & Hv & Hlc & Hlv & _).
  unfold col. rewrite Hc. cbn [default from_option id]. now rewrite length_map.
Qed.

Lemma length_volume : length (col df "Volume") = nrows df.
Proof.
  destruct wf_columns as (cq & vq & Hc & Hv & Hlc & Hlv & _).
  unfold col. rewrite Hv. cbn [default from_option id]. now rewrite length_map.
Qed.

Lemma close_finite (t : nat) :
  (t < nrows df)%nat -> exists q, close_at df t = Fin q.
Proof.
  destruct wf_columns as (cq & vq & Hc & Hv & Hlc & Hlv & _).
  intros Ht. unfold close_at, col. rewrite Hc. cbn [default from_option id].
  exists (nth t cq 0).
  rewrite (nth_indep (map Fin cq) NaN (Fin 0)) by (rewrite length_map; lia).
  apply map_nth.
Qed.

Lemma volume_finite (t : nat) :
  (t < nrows df)%nat -> exists q, volume_at df t = Fin q.
Proof.
  destruct wf_columns as (cq & vq & Hc & Hv & Hlc & Hlv & _).
  intros Ht. unfold volume_at, col. rewrite Hv. cbn [default from_option id].
  exists (nth t vq 0).
  rewrite (nth_indep (map Fin vq) NaN (Fin 0)) by (rewrite length_map; lia).
  apply map_nth.
Qed.

Lemma derived_close :
  columns (with_derived df) !! "Close" = Some (col df "Close").
Proof.
  destruct wf_columns as (cq & vq & Hc & Hv & _).
  unfold with_derived, col. cbn [columns].
  rewrite !lookup_insert_ne by done. now rewrite Hc.
Qed.

Lemma derived_ratio :
  columns (with_derived df) !! "Volume_Ratio" =
  Some (series_div (col df "Volume") (rolling_mean 20 (col df "Volume"))).
Proof. unfold with_derived. cbn [columns]. now rewrite lookup_insert_eq. Qed.

Lemma ratio_nth (t : nat) :
  (t < nrows df)%nat ->
  nth t (series_div (col df "Volume") (rolling_mean 20 (col df "Volume"))) NaN
  = volumeRatio df t.
Proof.
  intros Ht. pose proof length_volume as Hl. unfold series_div.
  rewrite (nth_zip_with fdiv _ _ t NaN NaN NaN)
    by (rewrite ?length_rolling_mean; lia).
  rewrite nth_rolling_mean by lia.
  unfold volumeRatio, volumeMovingAverage20, volume_at.
  destruct (Nat.ltb_spec (t + 1) 20), (Nat.ltb_spec t 19); try lia;
    [reflexivity |].
  replace (t + 1 - 20)%nat with (t - 19)%nat by lia. reflexivity.
Qed.

Lemma return_gt (t : nat) (y : float64) :
  (t < nrows df)%nat ->
  fgt (nth t (pct_change (col df "Close")) NaN) y = fgt (dailyReturn df t) y.
Proof.
  intros Ht. pose proof length_close as Hl.
  rewrite nth_pct_change by lia. unfold dailyReturn.
  destruct t as [| p]; [reflexivity |].
  destruct (close_finite (S p) Ht) as [a Ha].
  destruct (close_finite p) as [b Hb]; [lia |].
  unfold close_at in Ha, Hb |- *. rewrite Ha, Hb.
  apply fgt_feq, pct_change_forms.
Qed.

Lemma mask_nth (vt pt : Q) (t : nat) :
  (t < nrows df)%nat ->
  nth t (breakout_condition
           (series_div (col df "Volume") (rolling_mean 20 (col df "Volume")))
           (pct_change (col df "Close")) vt pt) false
  = is_breakout df vt pt t.
Proof.
  intros Ht. pose proof length_close as Hlc. pose proof length_volume as Hlv.
  unfold breakout_condition, series_and, series_gt, is_breakout.
  set (ratio := series_div _ _). set (ret := pct_change _).
  assert (Hr : length ratio = nrows df).
  { unfold ratio, series_div.
    rewrite length_zip_with, length_rolling_mean. lia. }
  assert (Hd : length ret = nrows df).
  { unfold ret. now rewrite length_pct_change. }
  rewrite (nth_zip_with andb _ _ t false false false)
    by (rewrite length_map; lia).
  set (f := fun x => fgt x (fdiv (Fin vt) (Fin 100))).
  set (g := fun x => fgt x (fdiv (Fin pt) (Fin 100))).
  rewrite (nth_indep (map f ratio) false (f NaN)) by (rewrite length_map; lia).
  rewrite (nth_indep (map g ret) false (g NaN)) by (rewrite length_map; lia).
  rewrite (map_nth f), (map_nth g). unfold f, g, ratio, ret.
  rewrite ratio_nth, return_gt by exact Ht. reflexivity.
Qed.

Lemma simulate_trade_at (h : Z) (t : nat) :
  (t < nrows df)%nat ->
  simulate_trade (with_derived df) h (date_at df t) =
  match exit_position (nrows df) t h with
  | Some e => Ok (trade_at df t e)
  | None => Raise IndexError
  end.
Proof.
  intros Ht. pose proof length_close as Hlc. pose proof length_volume as Hlv.
  destruct wf_columns as (_ & _ & _ & _ & _ & _ & Hinc).
  assert (Hloc : get_loc (index (with_derived df)) (date_at df t) = Ok t).
  { apply get_loc_nth; [exact Hinc | exact Ht]. }
  unfold simulate_trade, df_loc, df_iloc, exit_index, len.
  rewrite derived_close, derived_ratio, Hloc.
  cbn [mbind result_bind mret result_ret].
  rewrite (py_index_nat (col df "Close") t NaN) by lia.
  rewrite (py_index_nat (series_div _ _) t NaN)
    by (unfold series_div; rewrite length_zip_with, length_rolling_mean; lia).
  rewrite ratio_nth by exact Ht.
  change (index (with_derived df)) with (index df).
  fold (nrows df).
  pose proof (py_index_exit (index df) t h 0%Z Ht) as Hd.
  pose proof (py_index_exit (col df "Close") t h NaN) as Hc.
  rewrite Hlc in Hc. fold (nrows df) in Hd.
  rewrite Hd, (Hc Ht).
  now destruct (exit_position (nrows df) t h) as [e |].
Qed.

(** The detector adds the three derived columns to the frame and returns
    one record per qualifying position whose exit index resolves. *)
Lemma analyze_breakouts_trades (vt pt : Q) (h : Z) :
  analyze_breakouts vt pt h df = (with_derived df, Ok (trades df vt pt h)).
Proof.
  rewrite analyze_breakouts_unfold. f_equal. f_equal.
  rewrite breakout_loop_app. cbn [app].
  pose proof length_close as Hlc. pose proof length_volume as Hlv.
  rewrite boolean_index_positions.
  2:{ unfold breakout_condition, series_and, series_gt, series_div.
      rewrite length_zip_with, !length_map, length_zip_with,
        length_rolling_mean, length_pct_change.
      fold (nrows df). lia. }
  fold (nrows df).
  rewrite (filter_ext_in _ (is_breakout df vt pt)).
  2:{ intros t Hin. apply in_seq in Hin. apply mask_nth. lia. }
  fold (qualifying df vt pt). unfold trades.
  rewrite flat_map_concat_map, map_map, <- flat_map_concat_map.
  apply flat_map_ext_In. intros t Hin.
  apply filter_In in Hin as [Hin _]. apply in_seq in Hin.
  fold (date_at df t).
  rewrite simulate_trade_at by lia.
  now destruct (exit_position (nrows df) t h).
Qed.

End Detector.

(** ** Consequences for the qualifying positions *)

Section Qualifying.

Variable df : DataFrame.
Hypothesis Hwf : wf_series df = true.

Lemma qualifying_lt (vt pt : Q) (t : nat) :
  In t (qualifying df vt pt) -> (t < nrows df)%nat.
Proof.
  unfold qualifying. intros H. apply filter_In in H as [H _].
  apply in_seq in H. lia.
Qed.

Lemma qualifying_is_breakout (vt pt : Q) (t : nat) :
  In t (qualifying df vt pt) <->
  (t < nrows df)%nat /\ is_breakout df vt pt t = true.
Proof.
  unfold qualifying. rewrite filter_In, in_seq.
  split; intros [H1 H2]; (split; [lia | exact H2]).
Qed.

Lemma fgt_exceeds (x : float64) (q : Q) :
  fgt x (Fin q) = true <-> exceeds x q.
Proof.
  destruct x as [a | | |]; cbn [exceeds].
  - apply fgt_Fin.
  - simpl. tauto.
  - simpl. split; [discriminate | contradiction].
  - simpl. split; [discriminate | contradiction].
Qed.


Lemma is_breakout_exceeds (vt pt : Q) (t : nat) :
  is_breakout df vt pt t = true <->
  exceeds (volumeRatio df t) (vt / 100) /\ exceeds (dailyReturn df t) (pt / 100).
Proof.
  unfold is_breakout. rewrite andb_true_iff, !fgt_exceeds. reflexivity.
Qed.

Lemma volumeRatio_head (t : nat) : (t < 19)%nat -> volumeRatio df t = NaN.
Proof.
  intros Ht. unfold volumeRatio, volumeMovingAverage20.
  destruct (Nat.ltb_spec t 19); [| lia].
  now destruct (volume_at df t).
Qed.

Lemma short_series_no_breakout (vt pt : Q) :
  (nrows df < 20)%nat -> qualifying df vt pt = [].
Proof.
  intros Hn. unfold qualifying.
  destruct (List.filter _ _) as [| t l] eqn:E; [reflexivity |].
  assert (Hin : In t (List.filter (is_breakout df vt pt) (seq 0 (nrows df))))
    by (rewrite E; now left).
  apply filter_In in Hin as [Hin Hb]. apply in_seq in Hin.
  unfold is_breakout in Hb. rewrite volumeRatio_head in Hb by lia.
  discriminate.
Qed.

(** With a holding period that is not negative every exit index resolves,
    to [min(t + h, last)]. *)
Lemma trades_forward (vt pt : Q) (h : Z) :
  (0 <= h)%Z ->
  trades df vt pt h =
  map (fun t => trade_at df t (exitIndex df t h)) (qualifying df vt pt).
Proof.
  intros Hh. unfold trades. rewrite flat_map_concat_map.
  rewrite (map_ext_in _ (fun t => [trade_at df t (exitIndex df t h)])).
  - rewrite <- flat_map_concat_map.
    induction (qualifying df vt pt) as [| t l IH]; [reflexivity |].
    cbn [flat_map map app]. now rewrite IH.
  - intros t Hin. apply qualifying_lt in Hin.
    now rewrite exit_position_forward.
Qed.

(** A day that closes at zero has a daily return of -1 or none at all. *)
Lemma zero_close_needs_low_threshold (vt pt : Q) (t : nat) (q : Q) :
  In t (qualifying df vt pt) -> close_at df t = Fin q -> q == 0 ->
  pt < -100.
Proof.
  intros Hin Hq Hz. apply qualifying_is_breakout in Hin as [Ht Hb].
  apply is_breakout_exceeds in Hb as [_ Hd].
  unfold dailyReturn in Hd. destruct t as [| p]; [contradiction |].
  destruct (close_finite df Hwf p) as [b Hb]; [lia |].
  rewrite Hq, Hb in Hd. simpl in Hd.
  destruct (Qeq_bool b 0) eqn:Eb.
  - apply Qeq_bool_iff in Eb.
    assert (Hs : Qsign (q + - b) = Eq).
    { unfold Qsign. apply Qeq_alt. rewrite Hz, Eb. reflexivity. }
    rewrite Hs in Hd. contradiction.
  - apply Qeq_bool_false in Eb. cbn [exceeds] in Hd.
    assert (Hm : (q + - b) / b == -1) by (rewrite Hz; now field).
    rewrite Hm in Hd. unfold Qdiv in Hd. change (/ 100) with (1 # 100) in Hd.
    lra.
Qed.

Lemma positions_sorted (p : nat -> bool) (a n : nat) :
  StronglySorted lt (List.filter p (seq a n)).
Proof.
  revert a. induction n as [| n IH]; intros a; [constructor |].
  cbn [seq List.filter]. destruct (p a); [| apply IH].
  constructor; [apply IH |].
  apply List.Forall_forall. intros x Hx.
  apply filter_In in Hx as [Hx _]. apply in_seq in Hx. lia.
Qed.

Lemma dates_sorted (l : list nat) :
  StronglySorted lt l -> Forall (fun t => (t < nrows df)%nat) l ->
  StronglySorted Z.lt (map (date_at df) l).
Proof.
  destruct (wf_columns df Hwf) as (_ & _ & _ & _ & _ & _ & Hinc).
  induction 1 as [| t l Hs IH Hall]; intros Hlt; [constructor |].
  inversion Hlt as [| ? ? Ht Hl]; subst.
  cbn [map]. constructor; [now apply IH |].
  apply List.Forall_forall. intros d Hd.
  apply in_map_iff in Hd as (u & <- & Hu).
  rewrite List.Forall_forall in Hall, Hl.
  apply increasing_nth; [exact Hinc | now apply Hall | now apply Hl].
Qed.

Lemma qualifying_dates_sorted (vt pt : Q) :
  StronglySorted Z.lt (map (date_at df) (qualifying df vt pt)).
Proof.
  apply dates_sorted; [apply positions_sorted |].
  apply List.Forall_forall. intros t Ht. now apply qualifying_lt in Ht.
Qed.

End Qualifying.

Section Dates.

Variable df : DataFrame.
Hypothesis Hwf : wf_series df = true.

Lemma date_at_inj (t u : nat) :
  (t < nrows df)%nat -> (u < nrows df)%nat ->
  date_at df t = date_at df u -> t = u.
Proof.
  destruct (wf_columns df Hwf) as (_ & _ & _ & _ & _ & _ & Hinc).
  intros Ht Hu Heq. unfold date_at in Heq.
  destruct (Nat.lt_trichotomy t u) as [Hlt | [-> | Hgt]]; [| reflexivity |].
  - pose proof (increasing_nth (index df) t u Hinc Hlt Hu). lia.
  - pose proof (increasing_nth (index df) u t Hinc Hgt Ht). lia.
Qed.

Lemma exitIndex_spec (t : nat) (h : Z) :
  (0 <= h)%Z -> (t < nrows df)%nat ->
  exit_index t h (with_derived df) = Z.of_nat (exitIndex df t h).
Proof.
  intros Hh Ht. unfold exit_index, exitIndex, last_index, len.
  change (index (with_derived df)) with (index df). fold (nrows df). lia.
Qed.

Lemma zero_return (q : Q) :
  ~ q == 0 -> round2 (trade_return (Fin q) (Fin q)) = Fin 0.
Proof.
  intros Hq. rewrite trade_return_Fin by exact Hq. cbn [round2]. f_equal.
  rewrite (Qround2_Qeq _ 0); [reflexivity |]. now field.
Qed.

End Dates.

(** Closes a goal [~ In name derived_names] for a literal [name]. *)
Ltac not_derived :=
  unfold derived_names; simpl; intros H;
  repeat (destruct H as [H | H]; [discriminate |]); exact H.

Section DerivedColumns.

Variable df : DataFrame.
Hypothesis Hwf : wf_series df = true.

Lemma derived_return :
  columns (with_derived df) !! "Daily_Return" =
  Some (pct_change (col df "Close")).
Proof.
  unfold with_derived. cbn [columns].
  rewrite lookup_insert_ne by done. apply lookup_insert_eq.
Qed.

Lemma derived_ma20 :
  columns (with_derived df) !! "Volume_MA20" =
  Some (rolling_mean 20 (col df "Volume")).
Proof.
  unfold with_derived. cbn [columns].
  rewrite !lookup_insert_ne by done. apply lookup_insert_eq.
Qed.

Lemma derived_volume :
  columns (with_derived df) !! "Volume" = columns df !! "Volume".
Proof.
  unfold with_derived. cbn [columns]. now rewrite !lookup_insert_ne by done.
Qed.

Lemma derived_other (name : string) :
  ~ In name derived_names ->
  columns (with_derived df) !! name = columns df !! name.
Proof.
  intros Hn. unfold with_derived. cbn [columns].
  rewrite !lookup_insert_ne; [reflexivity | | |];
    intros <-; apply Hn; unfold derived_names; simpl; tauto.
Qed.

Lemma derived_col (name : string) :
  ~ In name derived_names -> col (with_derived df) name = col df name.
Proof. intros Hn. unfold col. now rewrite derived_other. Qed.

Lemma derived_wf : wf_series (with_derived df) = true.
Proof.
  unfold wf_series in *.
  rewrite (derived_other "Close"), (derived_other "Volume");
    [exact Hwf | |]; not_derived.
Qed.

(** Running the detector again on the frame it left behind changes
    nothing more. *)
Lemma with_derived_idem : with_derived (with_derived df) = with_derived df.
Proof.
  assert (Hc : col (with_derived df) "Close" = col df "Close").
  { apply derived_col. not_derived. }
  assert (Hv : col (with_derived df) "Volume" = col df "Volume").
  { apply derived_col. not_derived. }
  unfold with_derived at 1. rewrite Hc, Hv.
  unfold with_derived. cbn [index columns]. f_equal.
  apply map_eq. intros name.
  destruct (decide (name = "Volume_Ratio")) as [-> | H1];
    [now rewrite !lookup_insert_eq |].
  rewrite !(lookup_insert_ne _ "Volume_Ratio") by done.
  destruct (decide (name = "Daily_Return")) as [-> | H2];
    [now rewrite !lookup_insert_eq |].
  rewrite !(lookup_insert_ne _ "Daily_Return") by done.
  destruct (decide (name = "Volume_MA20")) as [-> | H3];
    [now rewrite !lookup_insert_eq |].
  now rewrite !lookup_insert_ne by done.
Qed.

Lemma trades_derived (vt pt : Q) (h : Z) :
  trades (with_derived df) vt pt h = trades df vt pt h.
Proof.
  assert (Hc : col (with_derived df) "Close" = col df "Close").
  { apply derived_col. not_derived. }
  assert (Hv : col (with_derived df) "Volume" = col df "Volume").
  { apply derived_col. not_derived. }
  unfold trades, qualifying, is_breakout, trade_at, volumeRatio,
    volumeMovingAverage20, dailyReturn, close_at, volume_at, date_at, nrows.
  rewrite Hc, Hv. reflexivity.
Qed.

End DerivedColumns.

(** Too short for a moving average: no record and no error. *)
Lemma short_series_empty (df : DataFrame) (vt pt : Q) (h : Z) :
  wf_series df = true -> (nrows df < 20)%nat ->
  snd (analyze_breakouts vt pt h df) = Ok [].
Proof.
  intros Hwf Hn. rewrite (analyze_breakouts_trades df Hwf). cbn [snd].
  unfold trades. now rewrite short_series_no_breakout.
Qed.

(** ** Reductions over finite returns *)

Section Reductions.


Lemma inject_pos_nonzero (n : nat) :
  (0 < n)%nat -> Qeq_bool (inject_Z (Z.of_nat n)) 0 = false.
Proof.
  intros Hn. destruct (Qeq_bool _ 0) eqn:E; [| reflexivity].
  apply Qeq_bool_iff in E. unfold Qeq, inject_Z in E. simpl in E. lia.
Qed.

Lemma fdiv_count (a : Q) (n : nat) :
  (0 < n)%nat -> fdiv (Fin a) (of_nat n) = Fin (a / inject_Z (Z.of_nat n)).
Proof.
  intros Hn. unfold of_nat, of_Z. cbn [fdiv].
  now rewrite inject_pos_nonzero.
Qed.














End Reductions.

(** ** The exception paths, on samples *)

(** A breakout day whose date occurs twice cannot be located by an integer;
    its iteration raises and the day is skipped. *)
Example repeated_date_skipped :
  simulate_trade (with_derived repeated_date_frame) 10 20 = Raise TypeError /\
  snd (analyze_breakouts 200 2 10 repeated_date_frame) = Ok [].
Proof. split; vm_compute; reflexivity. Qed.

(** A holding period so negative that the exit index falls before the start
    of the series raises inside the loop; the day is skipped. *)
Example exit_out_of_range_skipped :
  simulate_trade (with_derived spike_frame) (-46) 20 = Raise IndexError /\
  snd (analyze_breakouts 200 2 (-46) spike_frame) = Ok [].
Proof. split; vm_compute; reflexivity. Qed.

(** A missing column raises outside the loop, after the first assignment
    has already changed the frame. *)
Example missing_close_raises :
  snd (analyze_breakouts 200 2 10 no_close_frame) = Raise KeyError /\
  is_Some (columns (fst (analyze_breakouts 200 2 10 no_close_frame))
             !! "Volume_MA20").
Proof. split; [vm_compute; reflexivity | vm_compute; eauto]. Qed.

(** * The claims *)

(** ** Breakout detection *)



(** C2.  With a positive holding period every qualifying position [t] yields
    a record, and its exit index, the value of line 62, is
    [min(t + holding_period, last)]: the holding period away from the entry
    when that is within the series, the last index otherwise.  A breakout at
    the last index exits where it entered and returns 0%, for a close that
    is not zero, which is every qualifying close unless the price threshold
    is below -100. *)
Theorem exit_index_clamped (df : DataFrame) (vt pt : Q) (h : Z) :
  wf_series df = true -> (0 < h)%Z ->
  snd (analyze_breakouts vt pt h df) =
    Ok (map (fun t => trade_at df t (exitIndex df t h)) (qualifying df vt pt))
  /\ forall t, In t (qualifying df vt pt) ->
       let e := exitIndex df t h in
       exit_index t h (fst (analyze_breakouts vt pt h df)) = Z.of_nat e
       /\ (t <= e <= last_index df)%nat
       /\ ((t + Z.to_nat h <= last_index df)%nat -> (e - t)%nat = Z.to_nat h)
       /\ ((last_index df < t + Z.to_nat h)%nat -> e = last_index df)
       /\ Exit_Date (trade_at df t e) = date_at df e
       /\ (e = t -> forall q, close_at df t = Fin q -> ~ q == 0 ->
             Return_Pct (trade_at df t e) = Fin 0)
       /\ (e = t -> -100 <= pt -> Return_Pct (trade_at df t e) = Fin 0).
Proof.
  intros Hwf Hh. rewrite (analyze_breakouts_trades df Hwf). cbn [fst snd].
  split; [now rewrite trades_forward by lia |].
  intros t Hin. pose proof (qualifying_lt df vt pt t Hin) as Ht.
  split; [apply exitIndex_spec; [lia | exact Ht] |].
  assert (Hzero : exitIndex df t h = t ->
            forall q, close_at df t = Fin q -> ~ q == 0 ->
            Return_Pct (trade_at df t (exitIndex df t h)) = Fin 0).
  { intros He q Hq Hne. cbn [trade_at Return_Pct]. rewrite He, Hq.
    now apply zero_return. }
  unfold last_index. repeat split; try (unfold exitIndex, last_index; lia).
  - exact Hzero.
  - intros He Hpt. destruct (close_finite df Hwf t Ht) as [q Hq].
    apply (Hzero He q Hq). intros Hz.
    pose proof (zero_close_needs_low_threshold df Hwf vt pt t q Hin Hq Hz).
    lra.
Qed.

Lemma exit_index_clamped_witness :
  wf_series spike_frame = true /\ (0 < 10)%Z /\
  snd (analyze_breakouts 200 2 10 spike_frame) =
    Ok [trade_at spike_frame 20 24].
Proof.
  split; [reflexivity |]. split; [lia |].
  assert (Hwf : wf_series spike_frame = true) by reflexivity.
  assert (Hh : (0 < 10)%Z) by lia.
  destruct (exit_index_clamped spike_frame 200 2 10 Hwf Hh) as [Hrs _].
  rewrite Hrs. vm_compute. reflexivity.
Defined.



(** Rounding before aggregating shows: on [penny_frame] the trade gains
    0.004 units on 103, which is stored as a return of 0.00, and the summary
    counts no win. *)
Example stored_return_decides_win :
  exists r,
    snd (analyze_breakouts 200 2 1 penny_frame) = Ok [r] /\
    fgt (trade_return (close_at penny_frame 20) (close_at penny_frame 21))
        (Fin 0) = true /\
    Return_Pct r = Fin 0 /\
    Win_Rate (create_summary_stats [r]) = Fin 0.
Proof. eexists. repeat split; vm_compute; reflexivity. Qed.

(** C4.  The detector emits exactly one record per qualifying day, each
    computed from its own entry position whatever the neighbouring
    breakouts are, so nothing is merged or dropped, and the records come in
    strictly ascending entry date. *)
Theorem one_record_per_breakout_day (df : DataFrame) (vt pt : Q) (h : Z) :
  wf_series df = true -> (0 <= h)%Z ->
  exists rs,
    snd (analyze_breakouts vt pt h df) = Ok rs /\
    rs = map (fun t => trade_at df t (exitIndex df t h)) (qualifying df vt pt) /\
    length rs = length (qualifying df vt pt) /\
    map Entry_Date rs = map (date_at df) (qualifying df vt pt) /\
    (forall t, (t < nrows df)%nat ->
       (is_breakout df vt pt t = true <->
        In (date_at df t) (map Entry_Date rs))) /\
    StronglySorted Z.lt (map Entry_Date rs).
Proof.
  intros Hwf Hh.
  exists (map (fun t => trade_at df t (exitIndex df t h)) (qualifying df vt pt)).
  rewrite (analyze_breakouts_trades df Hwf). cbn [snd].
  rewrite trades_forward by assumption.
  assert (Hdates :
    map Entry_Date
      (map (fun t => trade_at df t (exitIndex df t h)) (qualifying df vt pt))
    = map (date_at df) (qualifying df vt pt)).
  { rewrite map_map. reflexivity. }
  repeat split; try reflexivity.
  - now rewrite length_map.
  - exact Hdates.
  - intros Hb. rewrite Hdates. apply in_map.
    now apply qualifying_is_breakout.
  - rewrite Hdates. intros Hd. apply in_map_iff in Hd as (u & Heq & Hu).
    pose proof (qualifying_lt df vt pt u Hu) as Hlt.
    apply (date_at_inj df Hwf) in Heq; [| assumption | assumption].
    subst u. now apply qualifying_is_breakout in Hu.
  - rewrite Hdates. now apply qualifying_dates_sorted.
Qed.

Lemma one_record_per_breakout_day_witness :
  wf_series double_frame = true /\ (0 <= 10)%Z /\
  exists rs, snd (analyze_breakouts 200 2 10 double_frame) = Ok rs /\
             map Entry_Date rs = [20; 21]%Z /\
             map Exit_Date rs = [24; 24]%Z.
Proof.
  split; [reflexivity |]. split; [lia |].
  assert (Hwf : wf_series double_frame = true) by reflexivity.
  assert (Hh : (0 <= 10)%Z) by lia.
  destruct (one_record_per_breakout_day double_frame 200 2 10 Hwf Hh)
    as (rs & Hrs & Hmap & _).
  exists rs. split; [exact Hrs |]. rewrite Hmap. vm_compute. now split.
Defined.


(** ** Degenerate prices and parameters *)




(** C8, as stated, fails: on [spike_frame] a holding period of zero, a
    negative one, and negative thresholds all return a record sequence
    computed from the parameters as given, with an exit on or before the
    entry day, or one that wraps around to the end of the series. *)
Lemma invalid_parameters_accepted :
  snd (analyze_breakouts 200 2 0 spike_frame)
    = Ok [mkTrade 20 (Fin 103) 20 (Fin 103) (Fin 0) (Fin (273 # 100))] /\
  snd (analyze_breakouts 200 2 (-1) spike_frame)
    = Ok [mkTrade 20 (Fin 103) 19 (Fin 100) (Fin (-291 # 100)) (Fin (273 # 100))] /\
  snd (analyze_breakouts 200 2 (-21) spike_frame)
    = Ok [mkTrade 20 (Fin 103) 24 (Fin 103) (Fin 0) (Fin (273 # 100))] /\
  exists rs, snd (analyze_breakouts (-200) (-2) 10 spike_frame) = Ok rs /\
             length rs = 6%nat.
Proof.
  repeat split; try (vm_compute; reflexivity).
  eexists. split; vm_compute; reflexivity.
Qed.

(** C8, amended.  The detector validates nothing: on an input series it
    returns a record sequence for any thresholds and any holding period,
    never an error.  The thresholds select the days as given, and a holding
    period that is zero or negative is added to the entry index as given, so
    the exit falls on or before the entry day.  The minimums are the
    host's. *)
Theorem parameters_not_validated (df : DataFrame) (vt pt : Q) (h : Z) :
  wf_series df = true ->
  snd (analyze_breakouts vt pt h df) = Ok (trades df vt pt h) /\
  (forall t, In t (qualifying df vt pt) <->
     (t < nrows df)%nat /\
     exceeds (volumeRatio df t) (vt / 100) /\
     exceeds (dailyReturn df t) (pt / 100)) /\
  (forall t, In t (qualifying df vt pt) ->
     (h <= 0)%Z -> (0 <= Z.of_nat t + h)%Z ->
     In (trade_at df t (Z.to_nat (Z.of_nat t + h))) (trades df vt pt h)).
Proof.
  intros Hwf. rewrite (analyze_breakouts_trades df Hwf). cbn [snd].
  split; [reflexivity |]. split.
  - intros t. rewrite qualifying_is_breakout, is_breakout_exceeds.
    reflexivity.
  - intros t Hin Hh Hth. unfold trades. apply in_flat_map.
    exists t. split; [exact Hin |].
    pose proof (qualifying_lt df vt pt t Hin) as Ht.
    assert (He : exit_position (nrows df) t h
                 = Some (Z.to_nat (Z.of_nat t + h))).
    { unfold exit_position.
      replace (Z.min (Z.of_nat t + h) (Z.of_nat (nrows df) - 1))
        with (Z.of_nat t + h)%Z by lia.
      destruct (Z.ltb_spec (Z.of_nat t + h) 0); [lia |].
      destruct (Z.ltb_spec (Z.of_nat t + h) 0); [lia | reflexivity]. }
    rewrite He. now left.
Qed.

Lemma parameters_not_validated_witness :
  wf_series spike_frame = true /\
  snd (analyze_breakouts 200 2 (-1) spike_frame)
    = Ok (trades spike_frame 200 2 (-1)).
Proof.
  assert (Hwf : wf_series spike_frame = true) by reflexivity.
  split; [exact Hwf |].
  exact (proj1 (parameters_not_validated spike_frame 200 2 (-1) Hwf)).
Defined.

(** ** The caller's frame *)

(** C9, as stated, fails: the frame the caller passed has no moving-average
    column before the run and has one after it. *)
Lemma detector_adds_columns :
  columns spike_frame !! "Volume_MA20" = None /\
  columns (fst (analyze_breakouts 200 2 10 spike_frame)) !! "Volume_MA20"
    = Some (repeat NaN 19 ++ [Fin (20000 # 20)] ++ repeat (Fin (22000 # 20)) 5) /\
  fst (analyze_breakouts 200 2 10 spike_frame) <> spike_frame.
Proof.
  assert (H0 : columns spike_frame !! "Volume_MA20" = None) by reflexivity.
  assert (H1 :
    columns (fst (analyze_breakouts 200 2 10 spike_frame)) !! "Volume_MA20"
    = Some (repeat NaN 19 ++ [Fin (20000 # 20)] ++ repeat (Fin (22000 # 20)) 5))
    by (vm_compute; reflexivity).
  repeat split; try assumption.
  intros Heq. rewrite Heq, H0 in H1. discriminate.
Qed.

(** C9, amended.  The detector writes the three derived columns into the
    caller's frame and changes nothing else: the index and every other
    column stay as they were.  The derived columns are functions of the
    Volume and Close columns alone, so a replay on the frame the detector
    left behind gives the same frame and the same records. *)
Theorem detector_frame_effect (df : DataFrame) (vt pt : Q) (h : Z) :
  wf_series df = true ->
  let df' := fst (analyze_breakouts vt pt h df) in
  index df' = index df /\
  (forall name, ~ In name derived_names ->
     columns df' !! name = columns df !! name) /\
  columns df' !! "Volume_MA20" = Some (rolling_mean 20 (col df "Volume")) /\
  columns df' !! "Daily_Return" = Some (pct_change (col df "Close")) /\
  columns df' !! "Volume_Ratio"
    = Some (series_div (col df "Volume") (rolling_mean 20 (col df "Volume"))) /\
  analyze_breakouts vt pt h df' = (df', snd (analyze_breakouts vt pt h df)).
Proof.
  intros Hwf df'. unfold df'.
  rewrite (analyze_breakouts_trades df Hwf). cbn [fst snd].
  split; [reflexivity |].
  split; [intros name Hn; now apply derived_other |].
  split; [apply derived_ma20 |].
  split; [apply derived_return |].
  split; [apply derived_ratio |].
  rewrite (analyze_breakouts_trades (with_derived df) (derived_wf df Hwf)).
  now rewrite (with_derived_idem df), (trades_derived df).
Qed.

Lemma detector_frame_effect_witness :
  wf_series spike_frame = true /\
  columns (fst (analyze_breakouts 200 2 10 spike_frame)) !! "Close"
    = columns spike_frame !! "Close".
Proof.
  split; [reflexivity |].
  assert (Hwf : wf_series spike_frame = true) by reflexivity.
  destruct (detector_frame_effect spike_frame 200 2 10 Hwf) as (_ & Hother & _).
  apply Hother. not_derived.
Defined.

(** ** Summary statistics *)



(** C6.  A series of fewer than twenty points, the empty one included,
    yields no record and no error, and the summary of no records is the
    all-zero one.  The zeros come from the branch on the empty input: the
    formulas of the other branch, applied to no records, do not give
    them. *)
Theorem short_series_and_empty_summary (df : DataFrame) (vt pt : Q) (h : Z) :
  wf_series df = true -> (nrows df < 20)%nat ->
  snd (analyze_breakouts vt pt h df) = Ok [] /\
  create_summary_stats [] = zero_summary /\
  zero_summary = mkSummary (Fin 0) (Fin 0) (Fin 0) (Fin 0) (Fin 0) (Fin 0) /\
  summary_of (map stat_round2 (summary_dict [])) <> zero_summary /\
  Average_Return (summary_of (map stat_round2 (summary_dict []))) = NaN.
Proof.
  intros Hwf Hn. split; [now apply short_series_empty |].
  repeat split. discriminate.
Qed.

Lemma short_series_and_empty_summary_witness :
  wf_series short_frame = true /\ (nrows short_frame < 20)%nat /\
  snd (analyze_breakouts 200 2 10 short_frame) = Ok [].
Proof.
  assert (Hwf : wf_series short_frame = true) by reflexivity.
  assert (Hn : (nrows short_frame < 20)%nat) by (vm_compute; lia).
  split; [exact Hwf |]. split; [exact Hn |].
  exact (proj1 (short_series_and_empty_summary short_frame 200 2 10 Hwf Hn)).
Defined.

(** C10.  For a single record, whose return is stored at two decimals as
    the detector stores it, the aggregator reports a standard deviation
    that is not-a-number, not zero, while the count is 1, the win rate is 0
    or 100, and the mean, the largest and the smallest return are the
    record's return. *)
Theorem single_record_std_undefined (r : TradeRecord) :
  round2 (Return_Pct r) = Return_Pct r ->
  let s := create_summary_stats [r] in
  Std_Dev s = NaN /\ Std_Dev s <> Fin 0 /\
  Total_Trades s = Fin 1 /\
  (Win_Rate s = Fin 0 \/ Win_Rate s = Fin 100) /\
  (Win_Rate s = Fin 100 <-> fgt (Return_Pct r) (Fin 0) = true) /\
  Average_Return s = Return_Pct r /\
  Max_Return s = Return_Pct r /\
  Min_Return s = Return_Pct r.
Proof.
  intros Hr s. unfold s, create_summary_stats, summary_dict.
  cbn [length Nat.eqb map summary_of nth stat_round2 Total_Trades Win_Rate
       Average_Return Max_Return Min_Return Std_Dev series_std].
  assert (Hstd : sqrt_round2 (series_var [Return_Pct r]) = NaN).
  { unfold series_var, dropna. cbn [List.filter].
    destruct (negb (isnan (Return_Pct r))); reflexivity. }
  assert (Hwin : round2 (fmul (bool_mean (series_gt [Return_Pct r] (Fin 0)))
                              (Fin 100))
                 = if fgt (Return_Pct r) (Fin 0) then Fin 100 else Fin 0).
  { unfold bool_mean, series_gt. cbn [map List.filter id].
    destruct (fgt (Return_Pct r) (Fin 0)); reflexivity. }
  rewrite Hstd, Hwin.
  split; [reflexivity |]. split; [discriminate |].
  split; [reflexivity |].
  split; [destruct (fgt (Return_Pct r) (Fin 0)); tauto |].
  split; [destruct (fgt (Return_Pct r) (Fin 0)); split; congruence |].
  unfold series_mean, series_max, series_min, dropna. cbn [List.filter].
  destruct (Return_Pct r) as [q | | |] eqn:Eq; cbn [isnan negb fold_left].
  - cbn [round2] in Hr |- *. injection Hr as Hr.
    repeat split; try (now rewrite Hr).
    cbn [fsum fold_right fadd length of_nat of_Z fdiv].
    change (Qeq_bool (inject_Z (Z.of_nat 1)) 0) with false. cbn [round2].
    f_equal. rewrite <- Hr at 2. apply Qround2_Qeq.
    change (inject_Z (Z.of_nat 1)) with 1. field.
  - repeat split; reflexivity.
  - repeat split; reflexivity.
  - repeat split; reflexivity.
Qed.

Lemma single_record_std_undefined_witness :
  round2 (Fin 5) = Fin 5 /\
  create_summary_stats [trade_with_return (Fin 5)]
  = mkSummary (Fin 1) (Fin 100) (Fin 5) (Fin 5) (Fin 5) NaN.
Proof.
  split; [reflexivity |].
  assert (Hr : round2 (Return_Pct (trade_with_return (Fin 5)))
               = Return_Pct (trade_with_return (Fin 5))) by reflexivity.
  pose proof (single_record_std_undefined (trade_with_return (Fin 5)) Hr)
    as (Hs & _ & Ht & _ & Hw & Ha & Hmax & Hmin).
  destruct (create_summary_stats [trade_with_return (Fin 5)]) as [t w a mx mn sd].
  cbn [Std_Dev Total_Trades Win_Rate Average_Return Max_Return Min_Return] in *.
  subst. f_equal. now apply Hw.
Defined.

(** * Further properties *)

(** ** Rounding is monotone *)

Section RoundingOrder.

Lemma rint_monotone (p q : Q) : p <= q -> (rint p <= rint q)%Z.
Proof.
  intros Hpq.
  destruct (rint_bounds p) as [Hp _]. destruct (rint_bounds q) as [_ Hq].
  destruct (Z_le_gt_dec (rint p) (rint q)) as [Hle | Hgt]; [exact Hle |].
  assert (Hstep : inject_Z (rint q) + 1 <= inject_Z (rint p)).
  { change 1 with (inject_Z 1). rewrite <- inject_Z_plus, <- Zle_Qle. lia. }
  assert (Heq : p == q) by lra.
  rewrite (rint_Qeq p q Heq) in Hgt. lia.
Qed.

Lemma Qround2_monotone (p q : Q) : p <= q -> Qround2 p <= Qround2 q.
Proof.
  intros Hpq. rewrite !Qround2_hundredths.
  assert (Hr : (rint (p * 100) <= rint (q * 100))%Z)
    by (apply rint_monotone; lra).
  unfold Qle. simpl. lia.
Qed.

Lemma Qround2_0 : Qround2 0 = 0.
Proof. reflexivity. Qed.

Lemma Qround2_100 : Qround2 100 = 100.
Proof. reflexivity. Qed.



End RoundingOrder.

(** ** More on create_summary_stats *)

Section SummaryBounds.

Lemma create_summary_stats_nonempty (rs : list TradeRecord) :
  rs <> [] ->
  create_summary_stats rs = summary_of (map stat_round2 (summary_dict rs)).
Proof. destruct rs; [contradiction | reflexivity]. Qed.

Lemma filter_length_le {A : Type} (p : A -> bool) (l : list A) :
  (length (List.filter p l) <= length l)%nat.
Proof.
  induction l as [| x l IH]; [reflexivity |].
  cbn [List.filter]. destruct (p x); cbn [length]; lia.
Qed.

Lemma fraction_bounds (k n : nat) :
  (k <= n)%nat -> (0 < n)%nat ->
  0 <= inject_Z (Z.of_nat k) / inject_Z (Z.of_nat n) * 100 <= 100.
Proof.
  intros Hk Hn.
  assert (Hn' : 0 < inject_Z (Z.of_nat n)).
  { change 0 with (inject_Z 0). rewrite <- Zlt_Qlt. lia. }
  assert (Hk0 : 0 <= inject_Z (Z.of_nat k)).
  { change 0 with (inject_Z 0). rewrite <- Zle_Qle. lia. }
  assert (Hkn : inject_Z (Z.of_nat k) <= inject_Z (Z.of_nat n)).
  { rewrite <- Zle_Qle. lia. }
  assert (Hlo : 0 <= inject_Z (Z.of_nat k) / inject_Z (Z.of_nat n)).
  { apply Qle_shift_div_l; [exact Hn' | lra]. }
  assert (Hhi : inject_Z (Z.of_nat k) / inject_Z (Z.of_nat n) <= 1).
  { apply Qle_shift_div_r; [exact Hn' | lra]. }
  split; lra.
Qed.



End SummaryBounds.

(** The win rate of a non-empty collection is a number between 0 and 100,
    whatever the returns are, not-a-number and infinities included. *)
Theorem win_rate_is_percentage (rs : list TradeRecord) :
  rs <> [] ->
  exists w, Win_Rate (create_summary_stats rs) = Fin w /\ 0 <= w <= 100.
Proof.
  intros Hne. rewrite create_summary_stats_nonempty by exact Hne.
  unfold summary_dict.
  cbn [map summary_of nth stat_round2 Win_Rate].
  unfold bool_mean, series_gt. rewrite !length_map.
  set (k := length (List.filter id _)).
  assert (Hk : (k <= length rs)%nat).
  { unfold k. etransitivity; [apply filter_length_le |].
    now rewrite !length_map. }
  assert (Hn : (0 < length rs)%nat)
    by (destruct rs; [contradiction | simpl; lia]).
  unfold of_nat at 1, of_Z. rewrite fdiv_count by exact Hn.
  cbn [fmul round2]. eexists. split; [reflexivity |].
  pose proof (fraction_bounds k (length rs) Hk Hn) as [Hlo Hhi].
  split.
  - rewrite <- Qround2_0. now apply Qround2_monotone.
  - rewrite <- Qround2_100 at 2. now apply Qround2_monotone.
Qed.

Lemma win_rate_is_percentage_witness :
  three_trades <> [] /\
  exists w, Win_Rate (create_summary_stats three_trades) = Fin w /\
            0 <= w <= 100.
Proof.
  assert (Hne : three_trades <> []) by discriminate.
  split; [exact Hne |]. exact (win_rate_is_percentage three_trades Hne).
Defined.



Section SummaryOrder.












End SummaryOrder.





(** ** More on analyze_breakouts *)

Section DetectorOrder.

Variable df : DataFrame.
Hypothesis Hwf : wf_series df = true.

Lemma exceeds_weaken (x : float64) (q q' : Q) :
  q <= q' -> exceeds x q' -> exceeds x q.
Proof. destruct x; cbn [exceeds]; intros Hq H; try exact H. lra. Qed.

Lemma is_breakout_weaken (vt pt vt' pt' : Q) (t : nat) :
  vt <= vt' -> pt <= pt' ->
  is_breakout df vt' pt' t = true -> is_breakout df vt pt t = true.
Proof.
  intros Hv Hp. rewrite !is_breakout_exceeds. intros [H1 H2]. split.
  - apply exceeds_weaken with (vt' / 100); [| exact H1].
    unfold Qdiv. change (/ 100) with (1 # 100). lra.
  - apply exceeds_weaken with (pt' / 100); [| exact H2].
    unfold Qdiv. change (/ 100) with (1 # 100). lra.
Qed.

Lemma flat_map_filter_sublist {A B : Type} (f : A -> list B)
    (p p' : A -> bool) (l : list A) :
  (forall x, p' x = true -> p x = true) ->
  sublist (flat_map f (List.filter p' l)) (flat_map f (List.filter p l)).
Proof.
  intros Himp. induction l as [| x l IH]; [constructor |].
  cbn [List.filter]. destruct (p' x) eqn:E'.
  - rewrite (Himp x E'). cbn [flat_map]. now apply sublist_app.
  - destruct (p x); [| exact IH].
    cbn [flat_map]. now apply sublist_inserts_l.
Qed.

Lemma date_at_monotone (t u : nat) :
  (t <= u)%nat -> (u < nrows df)%nat -> (date_at df t <= date_at df u)%Z.
Proof.
  destruct (wf_columns df Hwf) as (_ & _ & _ & _ & _ & _ & Hinc).
  intros Htu Hu. destruct (Nat.eq_dec t u) as [-> | Hne]; [lia |].
  pose proof (increasing_nth (index df) t u Hinc ltac:(lia) Hu).
  unfold date_at. lia.
Qed.

Lemma qualifying_from_19 (vt pt : Q) (t : nat) :
  In t (qualifying df vt pt) -> (19 <= t < nrows df)%nat.
Proof.
  intros Hin. apply qualifying_is_breakout in Hin as [Ht Hb].
  split; [| exact Ht].
  destruct (Nat.le_gt_cases 19 t) as [H | H]; [exact H |].
  apply is_breakout_exceeds in Hb as [Hb _].
  rewrite volumeRatio_head in Hb by exact H. contradiction.
Qed.

Lemma qualifying_count (vt pt : Q) :
  (length (qualifying df vt pt) <= nrows df - 19)%nat.
Proof.
  etransitivity;
    [apply (NoDup_incl_length (l' := seq 19 (nrows df - 19)))
    | now rewrite length_seq].
  - unfold qualifying. apply List.NoDup_filter, seq_NoDup.
  - intros t Ht. apply qualifying_from_19 in Ht. apply in_seq. lia.
Qed.

Lemma exitIndex_bounds (t : nat) (h : Z) :
  (t < nrows df)%nat -> (t <= exitIndex df t h < nrows df)%nat.
Proof. unfold exitIndex, last_index. lia. Qed.

End DetectorOrder.

(** Raising either threshold can only remove breakouts: the records for the
    higher thresholds are a subsequence of the records for the lower
    ones. *)
Theorem higher_thresholds_fewer_trades (df : DataFrame)
    (vt pt vt' pt' : Q) (h : Z) :
  wf_series df = true -> vt <= vt' -> pt <= pt' ->
  exists rs rs',
    snd (analyze_breakouts vt pt h df) = Ok rs /\
    snd (analyze_breakouts vt' pt' h df) = Ok rs' /\
    sublist rs' rs /\ (length rs' <= length rs)%nat.
Proof.
  intros Hwf Hv Hp. exists (trades df vt pt h), (trades df vt' pt' h).
  rewrite !(analyze_breakouts_trades df Hwf). cbn [snd].
  split; [reflexivity |]. split; [reflexivity |].
  assert (Hsub : sublist (trades df vt' pt' h) (trades df vt pt h)).
  { unfold trades, qualifying. apply flat_map_filter_sublist.
    intros t. now apply is_breakout_weaken. }
  split; [exact Hsub | now apply sublist_length].
Qed.

Lemma higher_thresholds_fewer_trades_witness :
  wf_series double_frame = true /\ 200 <= 260 /\ 2 <= 2 /\
  exists rs rs',
    snd (analyze_breakouts 200 2 10 double_frame) = Ok rs /\
    snd (analyze_breakouts 260 2 10 double_frame) = Ok rs' /\
    sublist rs' rs /\ (length rs' <= length rs)%nat.
Proof.
  assert (Hwf : wf_series double_frame = true) by reflexivity.
  assert (Hv : 200 <= 260) by lra. assert (Hp : 2 <= 2) by lra.
  repeat (split; [assumption |]).
  exact (higher_thresholds_fewer_trades double_frame 200 2 260 2 10 Hwf Hv Hp).
Defined.

(** With a holding period that is not negative, no record enters before
    the twentieth day of the series, every record exits on or after its
    entry day and within the series, and there are at most [nrows - 19]
    records. *)
Theorem trades_chronological (df : DataFrame) (vt pt : Q) (h : Z) :
  wf_series df = true -> (0 <= h)%Z ->
  exists rs,
    snd (analyze_breakouts vt pt h df) = Ok rs /\
    (length rs <= nrows df - 19)%nat /\
    forall r, In r rs ->
      (date_at df 19 <= Entry_Date r)%Z /\
      (Entry_Date r <= Exit_Date r)%Z /\
      (Exit_Date r <= date_at df (last_index df))%Z.
Proof.
  intros Hwf Hh. exists (trades df vt pt h).
  rewrite (analyze_breakouts_trades df Hwf). cbn [snd].
  split; [reflexivity |]. rewrite trades_forward by assumption.
  split; [rewrite length_map; now apply qualifying_count |].
  intros r Hr. apply in_map_iff in Hr as (t & <- & Hin).
  pose proof (qualifying_from_19 df vt pt t Hin) as [H19 Ht].
  pose proof (exitIndex_bounds df t h Ht) as [He1 He2].
  cbn [trade_at Entry_Date Exit_Date]. repeat split.
  - now apply date_at_monotone.
  - now apply date_at_monotone.
  - apply date_at_monotone; [exact Hwf | | unfold last_index; lia].
    unfold exitIndex. lia.
Qed.

Lemma trades_chronological_witness :
  wf_series double_frame = true /\ (0 <= 10)%Z /\
  exists rs,
    snd (analyze_breakouts 200 2 10 double_frame) = Ok rs /\
    (length rs <= nrows double_frame - 19)%nat.
Proof.
  assert (Hwf : wf_series double_frame = true) by reflexivity.
  assert (Hh : (0 <= 10)%Z) by lia.
  split; [exact Hwf |]. split; [exact Hh |].
  destruct (trades_chronological double_frame 200 2 10 Hwf Hh)
    as (rs & Hrs & Hlen & _).
  exists rs. now split.
Defined.

(** The holding period only decides the exit: for two holding periods that
    are not negative the entry dates, entry prices and volume ratios of the
    records coincide. *)
Theorem entry_side_independent_of_holding (df : DataFrame) (vt pt : Q)
    (h h' : Z) :
  wf_series df = true -> (0 <= h)%Z -> (0 <= h')%Z ->
  exists rs rs',
    snd (analyze_breakouts vt pt h df) = Ok rs /\
    snd (analyze_breakouts vt pt h' df) = Ok rs' /\
    map Entry_Date rs = map Entry_Date rs' /\
    map Entry_Price rs = map Entry_Price rs' /\
    map Volume_Ratio rs = map Volume_Ratio rs'.
Proof.
  intros Hwf Hh Hh'. exists (trades df vt pt h), (trades df vt pt h').
  rewrite !(analyze_breakouts_trades df Hwf). cbn [snd].
  rewrite !trades_forward by assumption. rewrite !map_map.
  repeat split; reflexivity.
Qed.

Lemma entry_side_independent_of_holding_witness :
  wf_series double_frame = true /\ (0 <= 1)%Z /\ (0 <= 10)%Z /\
  exists rs rs',
    snd (analyze_breakouts 200 2 1 double_frame) = Ok rs /\
    snd (analyze_breakouts 200 2 10 double_frame) = Ok rs' /\
    map Entry_Date rs = map Entry_Date rs'.
Proof.
  assert (Hwf : wf_series double_frame = true) by reflexivity.
  assert (Hh : (0 <= 1)%Z) by lia. assert (Hh' : (0 <= 10)%Z) by lia.
  repeat (split; [assumption |]).
  destruct (entry_side_independent_of_holding double_frame 200 2 1 10
              Hwf Hh Hh') as (rs & rs' & H1 & H2 & H3 & _).
  exists rs, rs'. repeat split; assumption.
Defined.

(** A holding period that reaches past the end of the series from the
    twentieth day on makes every record exit on the last day, at the last
    close. *)
Theorem long_holding_exits_on_last_day (df : DataFrame) (vt pt : Q) (h : Z) :
  wf_series df = true -> (Z.of_nat (last_index df) - 19 <= h)%Z ->
  exists rs,
    snd (analyze_breakouts vt pt h df) = Ok rs /\
    forall r, In r rs ->
      Exit_Date r = date_at df (last_index df) /\
      Exit_Price r = round2 (close_at df (last_index df)).
Proof.
  intros Hwf Hh. exists (trades df vt pt h).
  rewrite (analyze_breakouts_trades df Hwf). cbn [snd].
  split; [reflexivity |]. intros r Hr.
  unfold trades in Hr. apply in_flat_map in Hr as (t & Hin & Hr).
  pose proof (qualifying_from_19 df vt pt t Hin) as [H19 Ht].
  assert (Hpos : (0 <= h)%Z) by (unfold last_index in Hh; lia).
  rewrite exit_position_forward in Hr by assumption.
  destruct Hr as [<- | []].
  replace (Nat.min (t + Z.to_nat h) (nrows df - 1)) with (last_index df)
    by (unfold last_index in *; lia).
  split; reflexivity.
Qed.

Lemma long_holding_exits_on_last_day_witness :
  wf_series double_frame = true /\
  (Z.of_nat (last_index double_frame) - 19 <= 10)%Z /\
  exists rs,
    snd (analyze_breakouts 200 2 10 double_frame) = Ok rs /\
    map Exit_Date rs = [24; 24]%Z.
Proof.
  assert (Hwf : wf_series double_frame = true) by reflexivity.
  assert (Hh : (Z.of_nat (last_index double_frame) - 19 <= 10)%Z)
    by (vm_compute; discriminate).
  split; [exact Hwf |]. split; [exact Hh |].
  destruct (long_holding_exits_on_last_day double_frame 200 2 10 Hwf Hh)
    as (rs & Hrs & _).
  exists rs. split; [exact Hrs |].
  vm_compute in Hrs. injection Hrs as <-. reflexivity.
Defined.

(** A negative holding period that reaches before the first day is read
    by Python as an index from the end: the exit wraps around to the tail of
    the series.  One that reaches further back than the series is long
    raises inside the loop, and the day yields no record. *)
Theorem negative_holding_wraps_or_skips (df : DataFrame) (vt pt : Q) (h : Z)
    (t : nat) :
  wf_series df = true -> In t (qualifying df vt pt) ->
  exists rs,
    snd (analyze_breakouts vt pt h df) = Ok rs /\
    ((- Z.of_nat (nrows df) <= Z.of_nat t + h < 0)%Z ->
       In (trade_at df t (Z.to_nat (Z.of_nat t + h + Z.of_nat (nrows df)))) rs) /\
    ((Z.of_nat t + h < - Z.of_nat (nrows df))%Z ->
       forall r, In r rs -> Entry_Date r <> date_at df t).
Proof.
  intros Hwf Hin. exists (trades df vt pt h).
  rewrite (analyze_breakouts_trades df Hwf). cbn [snd].
  pose proof (qualifying_lt df vt pt t Hin) as Ht.
  split; [reflexivity |]. split.
  - intros Hrange. unfold trades. apply in_flat_map. exists t.
    split; [exact Hin |].
    assert (He : exit_position (nrows df) t h
                 = Some (Z.to_nat (Z.of_nat t + h + Z.of_nat (nrows df)))).
    { unfold exit_position.
      replace (Z.min (Z.of_nat t + h) (Z.of_nat (nrows df) - 1))
        with (Z.of_nat t + h)%Z by lia.
      destruct (Z.ltb_spec (Z.of_nat t + h) 0); [| lia].
      destruct (Z.ltb_spec (Z.of_nat t + h + Z.of_nat (nrows df)) 0);
        [lia | reflexivity]. }
    rewrite He. now left.
  - intros Hfar r Hr Hdate. unfold trades in Hr.
    apply in_flat_map in Hr as (u & Hu & Hr).
    pose proof (qualifying_lt df vt pt u Hu) as Hlt.
    destruct (exit_position (nrows df) u h) as [e |] eqn:He; [| contradiction].
    destruct Hr as [<- | []]. cbn [trade_at Entry_Date] in Hdate.
    apply (date_at_inj df Hwf) in Hdate; [| assumption | assumption].
    subst u. unfold exit_position in He.
    replace (Z.min (Z.of_nat t + h) (Z.of_nat (nrows df) - 1))
      with (Z.of_nat t + h)%Z in He by lia.
    destruct (Z.ltb_spec (Z.of_nat t + h) 0); [| lia].
    destruct (Z.ltb_spec (Z.of_nat t + h + Z.of_nat (nrows df)) 0);
      [discriminate | lia].
Qed.

Lemma negative_holding_wraps_or_skips_witness :
  wf_series spike_frame = true /\
  In 20%nat (qualifying spike_frame 200 2) /\
  exists rs,
    snd (analyze_breakouts 200 2 (-21) spike_frame) = Ok rs /\
    In (trade_at spike_frame 20 24) rs.
Proof.
  assert (Hwf : wf_series spike_frame = true) by reflexivity.
  assert (Hin : In 20%nat (qualifying spike_frame 200 2))
    by (vm_compute; left; reflexivity).
  split; [exact Hwf |]. split; [exact Hin |].
  destruct (negative_holding_wraps_or_skips spike_frame 200 2 (-21) 20 Hwf Hin)
    as (rs & Hrs & Hwrap & _).
  exists rs. split; [exact Hrs |].
  apply Hwrap. vm_compute. split; [discriminate | reflexivity].
Defined.



(** ** Frames that are not input series *)

Section AnyFrame.

Lemma bind_getitem_missing {A : Type} (name : string)
    (k : list float64 -> M A) (df : DataFrame) :
  columns df !! name = None -> (getitem name ≫= k) df = (df, Raise KeyError).
Proof. intros H. unfold mbind, M_bind, getitem. now rewrite H. Qed.

(** Whatever the frame, the detector either raises or returns the records
    of its loop over a frame with the same index. *)
Lemma analyze_breakouts_shape (vt pt : Q) (h : Z) (df : DataFrame) :
  (exists df' e, analyze_breakouts vt pt h df = (df', Raise e)) \/
  (exists df' days,
     analyze_breakouts vt pt h df = (df', Ok (breakout_loop df' h days []))
     /\ index df' = index df).
Proof.
  unfold analyze_breakouts.
  destruct (columns df !! "Volume") as [v |] eqn:Ev.
  2:{ left. eexists _, _. now apply bind_getitem_missing. }
  rewrite (bind_getitem "Volume" v _ _ Ev), bind_setitem.
  destruct (columns df !! "Close") as [c |] eqn:Ec.
  2:{ left. eexists _, _. apply bind_getitem_missing.
      cbn [columns]. now rewrite lookup_insert_ne by done. }
  rewrite (bind_getitem "Close" c)
    by (cbn [columns]; now rewrite lookup_insert_ne by done).
  rewrite bind_setitem.
  rewrite (bind_getitem "Volume" v)
    by (cbn [columns]; now rewrite !lookup_insert_ne by done).
  rewrite (bind_getitem "Volume_MA20" (rolling_mean 20 v))
    by (cbn [columns]; rewrite lookup_insert_ne by done;
        apply lookup_insert_eq).
  rewrite bind_setitem.
  rewrite (bind_getitem "Volume_Ratio" _ _ _ (lookup_insert_eq _ _ _)).
  rewrite (bind_getitem "Daily_Return" (pct_change c))
    by (cbn [columns]; rewrite lookup_insert_ne by done;
        apply lookup_insert_eq).
  rewrite bind_get_frame. right. eexists _, _. split; reflexivity.
Qed.

Lemma positions_count (l : list Z) (d : Z) (i : nat) :
  length (positions l d i) = count_occ Z.eq_dec l d.
Proof.
  revert i. induction l as [| a l IH]; intros i; [reflexivity |].
  cbn [positions count_occ].
  destruct (Z.eqb_spec a d), (Z.eq_dec a d); try contradiction;
    cbn [length]; now rewrite IH.
Qed.

Lemma get_loc_Ok (l : list Z) (d : Z) (p : nat) :
  get_loc l d = Ok p -> count_occ Z.eq_dec l d = 1%nat.
Proof.
  unfold get_loc. intros H. rewrite <- (positions_count l d 0).
  destruct (positions l d 0) as [| a [| b k]]; try discriminate. reflexivity.
Qed.

Lemma py_index_In {A : Type} (l : list A) (i : Z) (x : A) :
  py_index l i = Ok x -> In x l.
Proof.
  unfold py_index.
  destruct (_ <? 0)%Z; [discriminate |].
  destruct (nth_error l _) as [y |] eqn:E; [| discriminate].
  intros [= <-]. now apply nth_error_In in E.
Qed.

Lemma simulate_trade_Ok (df : DataFrame) (h d : Z) (r : TradeRecord) :
  simulate_trade df h d = Ok r ->
  Entry_Date r = d /\ count_occ Z.eq_dec (index df) d = 1%nat /\
  In (Exit_Date r) (index df).
Proof.
  unfold simulate_trade. intros H.
  destruct (df_loc df d "Close") as [entry |]; [| discriminate].
  cbn [mbind result_bind] in H.
  destruct (get_loc (index df) d) as [p |] eqn:Ep; [| discriminate].
  cbn [mbind result_bind] in H.
  destruct (py_index (index df) (exit_index p h df)) as [xd |] eqn:Ex;
    [| discriminate].
  cbn [mbind result_bind] in H.
  destruct (df_iloc df (exit_index p h df) "Close") as [xp |]; [| discriminate].
  cbn [mbind result_bind] in H.
  destruct (df_loc df d "Volume_Ratio") as [vr |]; [| discriminate].
  cbn [mbind result_bind mret result_ret] in H. injection H as <-.
  cbn [Entry_Date Exit_Date]. split; [reflexivity |].
  split; [now apply get_loc_Ok in Ep | now apply py_index_In in Ex].
Qed.

End AnyFrame.

(** On any frame whatever, every record the detector returns enters on a
    date that occurs exactly once in the index and exits on a date of the
    index: a breakout on a repeated date is skipped, never attributed to one
    of the rows that share it. *)
Theorem records_enter_on_unambiguous_dates (df : DataFrame) (vt pt : Q)
    (h : Z) (rs : list TradeRecord) :
  snd (analyze_breakouts vt pt h df) = Ok rs ->
  forall r, In r rs ->
    count_occ Z.eq_dec (index df) (Entry_Date r) = 1%nat /\
    In (Exit_Date r) (index df).
Proof.
  intros Hrs r Hr.
  destruct (analyze_breakouts_shape vt pt h df)
    as [(df' & e & Heq) | (df' & days & Heq & Hidx)];
    rewrite Heq in Hrs; cbn [snd] in Hrs; [discriminate |].
  injection Hrs as <-. rewrite breakout_loop_app in Hr. cbn [app] in Hr.
  apply in_flat_map in Hr as (d & _ & Hr).
  destruct (simulate_trade df' h d) as [r' | e] eqn:Es; [| contradiction].
  destruct Hr as [<- | []].
  apply simulate_trade_Ok in Es as (-> & Hc & Hx).
  rewrite Hidx in Hc, Hx. now split.
Qed.

Lemma records_enter_on_unambiguous_dates_witness :
  exists rs,
    snd (analyze_breakouts 200 2 10 spike_frame) = Ok rs /\ rs <> [] /\
    forall r, In r rs ->
      count_occ Z.eq_dec (index spike_frame) (Entry_Date r) = 1%nat.
Proof.
  eexists. split; [vm_compute; reflexivity |]. split; [discriminate |].
  intros r Hr.
  refine (proj1 (records_enter_on_unambiguous_dates spike_frame 200 2 10 _ _
                   r Hr)).
  vm_compute. reflexivity.
Defined.

(** A frame without its Volume column makes the detector raise a KeyError
    and is left as it was; a frame with Volume but without Close raises the
    same error after the moving average has already been written into
    it. *)
Theorem missing_column_raises (df : DataFrame) (vt pt : Q) (h : Z) :
  (columns df !! "Volume" = None ->
     analyze_breakouts vt pt h df = (df, Raise KeyError)) /\
  (forall v, columns df !! "Volume" = Some v -> columns df !! "Close" = None ->
     analyze_breakouts vt pt h df
     = (mkDataFrame (index df)
          (<["Volume_MA20" := rolling_mean 20 v]> (columns df)),
        Raise KeyError)).
Proof.
  split.
  - intros Hv. unfold analyze_breakouts. now apply bind_getitem_missing.
  - intros v Hv Hc. unfold analyze_breakouts.
    rewrite (bind_getitem "Volume" v _ _ Hv), bind_setitem.
    apply bind_getitem_missing. cbn [columns].
    now rewrite lookup_insert_ne by done.
Qed.

Lemma missing_column_raises_witness :
  columns no_close_frame !! "Close" = None /\
  snd (analyze_breakouts 200 2 10 no_close_frame) = Raise KeyError.
Proof.
  split; [reflexivity |].
  destruct (missing_column_raises no_close_frame 200 2 10) as [_ Hc].
  rewrite (Hc _ eq_refl eq_refl). reflexivity.
Defined.

(** ** The ticker input *)

Section Characters.

Ltac by_cases c := destruct c as [[] [] [] [] [] [] [] []]; vm_compute; auto.

Lemma upper_char_idem (c : ascii) : upper_char (upper_char c) = upper_char c.
Proof. by_cases c. Qed.

Lemma upper_char_space (c : ascii) : is_space (upper_char c) = is_space c.
Proof. by_cases c. Qed.

Lemma upper_char_comma (c : ascii) : upper_char c = comma -> c = comma.
Proof. by_cases c; discriminate. Qed.

Lemma comma_not_space : is_space comma = false.
Proof. reflexivity. Qed.

End Characters.

Section Stripping.

Lemma lstrip_clean (s : text) : clean_head (lstrip s).
Proof.
  induction s as [| c s IH]; [exact I |].
  cbn [lstrip]. destruct (is_space c) eqn:E; [exact IH | exact E].
Qed.

Lemma lstrip_fixed (s : text) : clean_head s -> lstrip s = s.
Proof. destruct s as [| c s]; [reflexivity |]. cbn. now intros ->. Qed.

Lemma rstrip_clean (s : text) : clean_head s -> clean_head (rstrip s).
Proof.
  destruct s as [| c s]; [intros _; exact I |]. cbn [clean_head rstrip].
  intros Hc. destruct (rstrip s); [now rewrite Hc | exact Hc].
Qed.

Lemma rstrip_cons (c : ascii) (s : text) :
  rstrip (c :: s) = match rstrip s with
                    | [] => if is_space c then [] else [c]
                    | r => c :: r
                    end.
Proof. reflexivity. Qed.

Lemma rstrip_idem (s : text) : rstrip (rstrip s) = rstrip s.
Proof.
  induction s as [| c s IH]; [reflexivity |]. rewrite rstrip_cons.
  destruct (rstrip s) as [| d r] eqn:E.
  - destruct (is_space c) eqn:Ec; [reflexivity |].
    rewrite rstrip_cons. cbn [rstrip]. now rewrite Ec.
  - rewrite rstrip_cons, IH. reflexivity.
Qed.

Lemma strip_idem (s : text) : strip (strip s) = strip s.
Proof.
  unfold strip.
  rewrite (lstrip_fixed (rstrip (lstrip s)))
    by apply rstrip_clean, lstrip_clean.
  apply rstrip_idem.
Qed.

Lemma lstrip_In (s : text) (c : ascii) : In c (lstrip s) -> In c s.
Proof.
  induction s as [| d s IH]; [contradiction |]. cbn [lstrip].
  destruct (is_space d); [intros H; right; now apply IH | trivial].
Qed.

Lemma rstrip_In (s : text) (c : ascii) : In c (rstrip s) -> In c s.
Proof.
  induction s as [| d s IH]; [contradiction |]. cbn [rstrip].
  destruct (rstrip s) as [| e r].
  - destruct (is_space d); [contradiction |]. intros [<- | []]. now left.
  - intros [<- | H]; [now left | right; now apply IH].
Qed.

Lemma strip_In (s : text) (c : ascii) : In c (strip s) -> In c s.
Proof. intros H. now apply lstrip_In, rstrip_In. Qed.

Lemma lstrip_upper (s : text) : lstrip (upper s) = upper (lstrip s).
Proof.
  induction s as [| c s IH]; [reflexivity |].
  cbn [upper map lstrip]. rewrite upper_char_space.
  destruct (is_space c); [exact IH | reflexivity].
Qed.

Lemma rstrip_upper (s : text) : rstrip (upper s) = upper (rstrip s).
Proof.
  induction s as [| c s IH]; [reflexivity |].
  cbn [upper map rstrip]. fold (upper s). rewrite IH, upper_char_space.
  destruct (rstrip s); [destruct (is_space c) |]; reflexivity.
Qed.

Lemma strip_upper (s : text) : strip (upper s) = upper (strip s).
Proof. unfold strip. now rewrite lstrip_upper, rstrip_upper. Qed.

Lemma upper_idem (s : text) : upper (upper s) = upper s.
Proof.
  unfold upper. rewrite map_map. apply map_ext. apply upper_char_idem.
Qed.

Lemma lstrip_blank (s : text) :
  forallb is_space (lstrip s) = forallb is_space s.
Proof.
  induction s as [| c s IH]; [reflexivity |]. cbn [lstrip forallb].
  destruct (is_space c) eqn:E; [exact IH |]. cbn [forallb]. now rewrite E.
Qed.

Lemma rstrip_nil (s : text) : rstrip s = [] <-> forallb is_space s = true.
Proof.
  induction s as [| c s IH]; [easy |]. cbn [rstrip forallb].
  destruct (rstrip s) as [| d r].
  - destruct (is_space c); cbn [andb].
    + split; [intros _; now apply IH | reflexivity].
    + split; discriminate.
  - split; [discriminate |]. intros H. apply andb_prop in H as [_ H].
    apply IH in H. discriminate.
Qed.

Lemma strip_nil (s : text) : strip s = [] <-> forallb is_space s = true.
Proof. unfold strip. now rewrite rstrip_nil, lstrip_blank. Qed.

Lemma nonblank_false (s : text) :
  nonblank s = false <-> forallb is_space s = true.
Proof.
  rewrite <- strip_nil. unfold nonblank.
  destruct (strip s); split; (reflexivity || discriminate).
Qed.

End Stripping.

Section Splitting.

Variable sep : ascii.

Lemma split_nonempty (s : text) : split sep s <> [].
Proof.
  destruct s as [| c s]; [discriminate |]. cbn [split].
  destruct (Ascii.eqb c sep); [discriminate |].
  destruct (split sep s); discriminate.
Qed.

Lemma split_cons_other (c : ascii) (s : text) :
  c <> sep ->
  exists w ws, split sep s = w :: ws /\ split sep (c :: s) = (c :: w) :: ws.
Proof.
  intros Hc. cbn [split]. destruct (Ascii.eqb_spec c sep); [contradiction |].
  destruct (split sep s) as [| w ws] eqn:E; [now apply split_nonempty in E |].
  now exists w, ws.
Qed.

Lemma split_no_sep (s : text) (w : text) :
  In w (split sep s) -> ~ In sep w.
Proof.
  revert w. induction s as [| c s IH]; intros w.
  - intros [<- | []] [].
  - destruct (Ascii.eqb_spec c sep) as [-> | Hc].
    + cbn [split]. rewrite Ascii.eqb_refl.
      intros [<- | H]; [intros [] | now apply IH].
    + destruct (split_cons_other c s Hc) as (v & vs & Hs & ->).
      rewrite Hs in IH.
      intros [<- | H].
      * intros [Heq | Hin]; [congruence |]. apply (IH v); [now left | exact Hin].
      * apply IH. now right.
Qed.

Lemma split_app (a b : text) :
  split sep (a ++ sep :: b) = split sep a ++ split sep b.
Proof.
  induction a as [| c a IH].
  - cbn [app split]. now rewrite Ascii.eqb_refl.
  - cbn [app]. destruct (Ascii.eqb_spec c sep) as [-> | Hc].
    + cbn [split]. rewrite Ascii.eqb_refl. cbn [app]. now rewrite IH.
    + destruct (split_cons_other c a Hc) as (w & ws & Hs & ->).
      cbn [split]. destruct (Ascii.eqb_spec c sep); [contradiction |].
      rewrite IH, Hs. reflexivity.
Qed.

Lemma split_pieces (P : ascii -> Prop) (s : text) :
  (forall w, In w (split sep s) -> forall c, In c w -> P c) <->
  (forall c, In c s -> c = sep \/ P c).
Proof.
  induction s as [| c s IH].
  - split; [intros _ c [] | intros _ w [<- | []] c []].
  - destruct (Ascii.eqb_spec c sep) as [-> | Hc].
    + cbn [split]. rewrite Ascii.eqb_refl. split.
      * intros H d [<- | Hd]; [now left |].
        apply IH; [| exact Hd]. intros w Hw. apply H. now right.
      * intros H w [<- | Hw] d Hd; [contradiction |].
        apply (proj2 IH) with w; [| exact Hw | exact Hd].
        intros e He. apply H. now right.
    + destruct (split_cons_other c s Hc) as (v & vs & Hs & ->).
      rewrite Hs in IH. split.
      * intros H d [<- | Hd].
        -- right. apply (H (c :: v)); now left.
        -- apply IH; [| exact Hd].
           intros w [<- | Hw] e He.
           ++ apply (H (c :: v)); [now left | now right].
           ++ apply (H w); [now right | exact He].
      * intros H w [<- | Hw] d Hd.
        -- destruct Hd as [<- | Hd].
           ++ destruct (H c (or_introl eq_refl)); [contradiction | assumption].
           ++ apply (proj2 IH) with v; [| now left | exact Hd].
              intros e He. apply H. now right.
        -- apply (proj2 IH) with w; [| now right | exact Hd].
           intros e He. apply H. now right.
Qed.

End Splitting.

Section Parsing.

Lemma split_upper (s : text) :
  split comma (upper s) = map upper (split comma s).
Proof.
  induction s as [| c s IH]; [reflexivity |].
  cbn [upper map split]. fold (upper s).
  assert (Hc : Ascii.eqb (upper_char c) comma = Ascii.eqb c comma).
  { destruct (Ascii.eqb_spec c comma) as [-> | Hne]; [reflexivity |].
    destruct (Ascii.eqb_spec (upper_char c) comma) as [He | _];
      [| reflexivity].
    now apply upper_char_comma in He. }
  rewrite Hc, IH. destruct (Ascii.eqb c comma); [reflexivity |].
  now destruct (split comma s).
Qed.

Lemma nonblank_upper (s : text) : nonblank (upper s) = nonblank s.
Proof.
  unfold nonblank. rewrite strip_upper. now destruct (strip s).
Qed.

Lemma filter_map_bool {A : Type} (f : A -> A) (p : A -> bool) (l : list A) :
  (forall x, p (f x) = p x) ->
  List.filter p (map f l) = map f (List.filter p l).
Proof.
  intros H. induction l as [| x l IH]; [reflexivity |].
  cbn [map List.filter]. rewrite H. destruct (p x); cbn [map]; now rewrite IH.
Qed.

Lemma upper_no_comma (s : text) : ~ In comma s -> ~ In comma (upper s).
Proof.
  intros H Hin. apply in_map_iff in Hin as (c & Hc & Hin).
  apply upper_char_comma in Hc. now subst.
Qed.

End Parsing.

(** Every ticker that comes out of the input line is non-empty, contains no
    comma, neither starts nor ends with whitespace, and is in upper case. *)
Theorem parsed_tickers_are_clean (ticker_input : text) (t : text) :
  forallb is_ascii ticker_input = true ->
  In t (parse_tickers ticker_input) ->
  t <> [] /\ ~ In comma t /\ strip t = t /\ upper t = t.
Proof.
  intros _ Hin. unfold parse_tickers in Hin.
  apply in_map_iff in Hin as (w & <- & Hw).
  apply filter_In in Hw as [Hw Hnb].
  repeat split.
  - unfold nonblank in Hnb. unfold upper.
    destruct (strip w); [discriminate | discriminate].
  - apply upper_no_comma. intros Hc. apply strip_In in Hc.
    now apply (split_no_sep comma ticker_input w Hw).
  - now rewrite strip_upper, strip_idem.
  - apply upper_idem.
Qed.

Lemma parsed_tickers_are_clean_witness :
  forallb is_ascii (list_ascii_of_string " aapl, tcs.ns ,") = true /\
  In (list_ascii_of_string "TCS.NS")
     (parse_tickers (list_ascii_of_string " aapl, tcs.ns ,")) /\
  strip (list_ascii_of_string "TCS.NS") = list_ascii_of_string "TCS.NS".
Proof.
  assert (Ha : forallb is_ascii (list_ascii_of_string " aapl, tcs.ns ,") = true)
    by reflexivity.
  assert (Hin : In (list_ascii_of_string "TCS.NS")
                   (parse_tickers (list_ascii_of_string " aapl, tcs.ns ,")))
    by (vm_compute; right; left; reflexivity).
  split; [exact Ha |]. split; [exact Hin |].
  exact (proj1 (proj2 (proj2 (parsed_tickers_are_clean _ _ Ha Hin)))).
Defined.

(** Parsing distributes over the comma: the tickers of [a,b] are those of
    [a] followed by those of [b]. *)
Theorem parse_tickers_concat (a b : text) :
  forallb is_ascii a = true -> forallb is_ascii b = true ->
  parse_tickers (a ++ comma :: b) = parse_tickers a ++ parse_tickers b.
Proof.
  intros _ _. unfold parse_tickers.
  now rewrite split_app, List.filter_app, map_app.
Qed.

Lemma parse_tickers_concat_witness :
  forallb is_ascii (list_ascii_of_string "aapl, tsla") = true /\
  forallb is_ascii (list_ascii_of_string " msft ") = true /\
  parse_tickers (list_ascii_of_string "aapl, tsla, msft ")
  = map list_ascii_of_string ["AAPL"; "TSLA"; "MSFT"]%string.
Proof.
  assert (Ha : forallb is_ascii (list_ascii_of_string "aapl, tsla") = true)
    by reflexivity.
  assert (Hb : forallb is_ascii (list_ascii_of_string " msft ") = true)
    by reflexivity.
  split; [exact Ha |]. split; [exact Hb |].
  change (list_ascii_of_string "aapl, tsla, msft ")
    with (list_ascii_of_string "aapl, tsla" ++ comma
            :: list_ascii_of_string " msft ").
  rewrite (parse_tickers_concat _ _ Ha Hb). reflexivity.
Defined.

(** The input yields no ticker exactly when it consists of commas and
    whitespace only (the empty input included); that is when the host asks
    for a ticker instead of running. *)
Theorem no_tickers_iff_blank (ticker_input : text) :
  forallb is_ascii ticker_input = true ->
  (parse_tickers ticker_input = [] <->
   forall c, In c ticker_input -> c = comma \/ is_space c = true).
Proof.
  intros _. rewrite <- (split_pieces comma (fun c => is_space c = true)).
  unfold parse_tickers. split.
  - intros Hnil w Hw c Hc.
    assert (Hnb : nonblank w = false).
    { destruct (nonblank w) eqn:E; [| reflexivity].
      assert (Hin : In w (List.filter nonblank (split comma ticker_input)))
        by (apply filter_In; now split).
      destruct (List.filter nonblank (split comma ticker_input));
        [contradiction | discriminate]. }
    apply nonblank_false in Hnb. rewrite forallb_forall in Hnb. now apply Hnb.
  - intros Hall.
    destruct (List.filter nonblank (split comma ticker_input)) as [| w ws] eqn:E;
      [reflexivity |].
    assert (Hin : In w (List.filter nonblank (split comma ticker_input)))
      by (rewrite E; now left).
    apply filter_In in Hin as [Hw Hnb].
    assert (Hb : nonblank w = false).
    { apply nonblank_false, forallb_forall. intros c Hc. now apply (Hall w). }
    congruence.
Qed.

Lemma no_tickers_iff_blank_witness :
  forallb is_ascii (list_ascii_of_string " , ,, ") = true /\
  parse_tickers (list_ascii_of_string " , ,, ") = [].
Proof.
  assert (Ha : forallb is_ascii (list_ascii_of_string " , ,, ") = true)
    by reflexivity.
  split; [exact Ha |].
  apply (no_tickers_iff_blank _ Ha).
  intros c Hc. vm_compute in Hc.
  repeat (destruct Hc as [<- | Hc]; [vm_compute; tauto |]). contradiction.
Defined.

(** The case of the input does not matter. *)
Theorem parse_tickers_case_insensitive (ticker_input : text) :
  forallb is_ascii ticker_input = true ->
  parse_tickers (upper ticker_input) = parse_tickers ticker_input.
Proof.
  intros _. unfold parse_tickers.
  rewrite split_upper, (filter_map_bool upper nonblank) by apply nonblank_upper.
  rewrite map_map. apply map_ext. intros w.
  now rewrite strip_upper, upper_idem.
Qed.

Lemma parse_tickers_case_insensitive_witness :
  forallb is_ascii (list_ascii_of_string "Aapl, tsLa") = true /\
  parse_tickers (list_ascii_of_string "AAPL, TSLA")
  = parse_tickers (list_ascii_of_string "Aapl, tsLa").
Proof.
  assert (Ha : forallb is_ascii (list_ascii_of_string "Aapl, tsLa") = true)
    by reflexivity.
  split; [exact Ha |].
  exact (parse_tickers_case_insensitive _ Ha).
Defined.

(** ** The per-ticker report *)

Section HostFacts.

Variable history : text -> Z -> Z -> result DataFrame.





End HostFacts.







(** The detector's exceptions are not caught by the host: a fetched frame
    that has rows but no Volume column ends the run with a KeyError at that
    ticker, and the tickers after it are not processed. *)
Theorem malformed_frame_aborts_run
    (history : text -> Z -> Z -> result DataFrame)
    (ticker : text) (rest : list text) (start_date end_date : Z)
    (vt pt : Q) (h : Z) (df : DataFrame) :
  history ticker (start_date - 30)%Z end_date = Ok df ->
  df_empty df = false -> columns df !! "Volume" = None ->
  ticker_report history ticker start_date end_date vt pt h = Raise KeyError /\
  generate_report history (ticker :: rest) start_date end_date vt pt h
  = ([], Some KeyError).
Proof.
  intros Hh He Hv.
  assert (Hr : ticker_report history ticker start_date end_date vt pt h
               = Raise KeyError).
  { unfold ticker_report, get_stock_data. rewrite Hh, He.
    unfold analyze_breakouts.
    now rewrite (bind_getitem_missing "Volume" _ df Hv). }
  split; [exact Hr |]. cbn [generate_report]. now rewrite Hr.
Qed.

Lemma malformed_frame_aborts_run_witness :
  broken_history (list_ascii_of_string "BAD") (30 - 30) 60 = Ok no_volume_frame /\
  df_empty no_volume_frame = false /\
  columns no_volume_frame !! "Volume" = None /\
  generate_report broken_history
    (map list_ascii_of_string ["BAD"; "AAPL"]%string) 30 60 200 2 10
  = ([], Some KeyError).
Proof.
  assert (Hh : broken_history (list_ascii_of_string "BAD") (30 - 30) 60
               = Ok no_volume_frame) by reflexivity.
  assert (He : df_empty no_volume_frame = false) by reflexivity.
  assert (Hv : columns no_volume_frame !! "Volume" = None) by reflexivity.
  repeat (split; [assumption |]).
  exact (proj2 (malformed_frame_aborts_run broken_history _
                  [list_ascii_of_string "AAPL"] 30 60 200 2 10 _ Hh He Hv)).
Defined.
